(** * CART classification trees: a shallow embedding of [ModelsML/DecisionTrees.py]

    The development follows the Python module top to bottom: the small
    amount of NumPy the module relies on, the binary tree node with its
    [children] property, [traverse], the per-feature split search
    [_best_split_classification] and the recursive [grow_tree].

    Conventions.
    - Feature values and class labels are integers ([Z]); a value of the
      example handed to [traverse] may also be Python's [None].
    - The feature matrix [X] is kept column by column: [X[:, idx]] is the
      [idx]-th list, [X.shape[1]] is the number of lists, and [X[mask, :]]
      filters every column with the same mask.
    - A NumPy float is an exact rational or [nan] ([fl := option Q]); rounding
      is not modelled.
    - A raised Python exception is a value of type [exn]; a function that may
      raise returns [res].
    - The module imports [gini] and [find_splits] from [.util], which is not
      among the sources: [gini] follows the formula of the specification and
      growth takes [find_splits] as a parameter. *)

From Stdlib Require Import String DecimalString.
From Stdlib Require Import List Sorted ZArith QArith Bool Lia Lqa.
Import ListNotations.
Open Scope string_scope.
Open Scope list_scope.
Open Scope Z_scope.

Set Warnings "-register-all".

(** ** Exceptions *)

Inductive exn : Type :=
| TypeError | IndexError | ValueError | AttributeError | AssertionError.

Inductive res (A : Type) : Type :=
| Ok (a : A)
| Raise (e : exn).

Arguments Ok {A} a.
Arguments Raise {A} e.

Definition bind {A B : Type} (m : res A) (k : A -> res B) : res B :=
  match m with
  | Ok a => k a
  | Raise e => Raise e
  end.

Notation "x <- m ;; k" := (bind m (fun x => k))
  (at level 61, m at next level, right associativity).
Notation "' p <- m ;; k" := (bind m (fun p => k))
  (at level 61, p pattern, m at next level, right associativity).

Fixpoint mapM {A B : Type} (f : A -> res B) (l : list A) : res (list B) :=
  match l with
  | [] => Ok []
  | a :: t => b <- f a ;; bs <- mapM f t ;; Ok (b :: bs)
  end.

Fixpoint mapM2 {A B C : Type} (f : A -> B -> res C) (l : list A) (r : list B)
  : res (list C) :=
  match l, r with
  | a :: t, b :: u => c <- f a b ;; cs <- mapM2 f t u ;; Ok (c :: cs)
  | _, _ => Ok []
  end.

(** ** Floats: exact rationals with [nan] *)

Module Float.

Definition fl : Type := option Q.

Definition nan : fl := None.
Definition of_Z (z : Z) : fl := Some (inject_Z z).
Definition one : fl := of_Z 1.

Definition lift2 (f : Q -> Q -> Q) (a b : fl) : fl :=
  match a, b with
  | Some x, Some y => Some (f x y)
  | _, _ => nan
  end.

Definition add : fl -> fl -> fl := lift2 Qplus.
Definition sub : fl -> fl -> fl := lift2 Qminus.
Definition mul : fl -> fl -> fl := lift2 Qmult.

(** NumPy division: a zero divisor gives [nan] or an infinity, never an
    exception; both are collapsed to [nan]. *)
Definition div (a b : fl) : fl :=
  match a, b with
  | Some x, Some y => if Qeq_bool y 0 then nan else Some (x / y)%Q
  | _, _ => nan
  end.

Definition Qltb (x y : Q) : bool := negb (Qle_bool y x).

(** [a < b]; any comparison with [nan] is false. *)
Definition ltb (a b : fl) : bool :=
  match a, b with
  | Some x, Some y => Qltb x y
  | _, _ => false
  end.

(** [a == b]. *)
Definition eqb (a b : fl) : bool :=
  match a, b with
  | Some x, Some y => Qeq_bool x y
  | _, _ => false
  end.

End Float.

Import Float.

(** ** The NumPy operations the module uses *)

Fixpoint insert_sorted (v : Z) (l : list Z) : list Z :=
  match l with
  | [] => [v]
  | h :: t =>
      if v <? h then v :: l
      else if v =? h then l
      else h :: insert_sorted v t
  end.

(** [np.unique(a)]: the distinct values, ascending. *)
Definition np_unique (a : list Z) : list Z := fold_right insert_sorted [] a.

Definition count (v : Z) (a : list Z) : Z :=
  Z.of_nat (count_occ Z.eq_dec a v).

(** [np.unique(a, return_counts=True)]. *)
Definition np_unique_counts (a : list Z) : list Z * list Z :=
  let u := np_unique a in (u, map (fun v => count v a) u).

Definition mem (v : Z) (s : list Z) : bool := existsb (Z.eqb v) s.

(** [np.isin(a, test)]. *)
Definition isin (a test : list Z) : list bool := map (fun v => mem v test) a.

(** [a[mask]] for a boolean mask; NumPy raises IndexError when the mask does
    not have the length of [a]. *)
Fixpoint select {A : Type} (a : list A) (mask : list bool) : list A :=
  match a, mask with
  | x :: t, b :: m => if b then x :: select t m else select t m
  | _, _ => []
  end.

Definition mask_index {A : Type} (a : list A) (mask : list bool) : res (list A) :=
  if (length mask =? length a)%nat then Ok (select a mask) else Raise IndexError.

Definition count_true (mask : list bool) : nat := length (filter id mask).

Fixpoint fill (mask : list bool) (vals : list Z) : list Z :=
  match mask with
  | [] => []
  | false :: m => 0 :: fill m vals
  | true :: m =>
      match vals with
      | v :: vs => v :: fill m vs
      | [] => 0 :: fill m []
      end
  end.

(** [new = np.zeros(len(mask)); new[mask] = vals].  The values must be as
    many as the mask has true entries, or a single value that is broadcast;
    otherwise NumPy raises ValueError. *)
Definition assign_masked (mask : list bool) (vals : list Z) : res (list Z) :=
  if (length vals =? count_true mask)%nat then Ok (fill mask vals)
  else match vals with
       | [v] => Ok (map (fun b : bool => if b then v else 0) mask)
       | _ => Raise ValueError
       end.

(** A candidate split point: a single value (every numeric and ordinal
    candidate, coming from [np.unique]) or a collection of values (what the
    candidate generator may produce for a categorical feature). *)
Inductive threshold : Type :=
| Scalar (t : Z)
| Subset (s : list Z).

Definition elements (thr : threshold) : list Z :=
  match thr with
  | Scalar t => [t]
  | Subset s => s
  end.

(** Element comparisons.  [None > t] raises TypeError; [None == t] is
    false. *)
Definition py_gt (a : option Z) (b : Z) : res bool :=
  match a with
  | Some z => Ok (z >? b)
  | None => Raise TypeError
  end.

Definition py_eq (a : option Z) (b : Z) : res bool :=
  match a with
  | Some z => Ok (z =? b)
  | None => Ok false
  end.

(** An elementwise binary operation of an array (or scalar, a one-element
    list) with a candidate, with NumPy's broadcasting: equal lengths pair up
    position by position, a length of one is stretched, anything else fails
    with [fail]. *)
Definition broadcast (op : option Z -> Z -> res bool) (fail : exn)
  (x_val : list (option Z)) (thr : threshold) : res (list bool) :=
  match thr with
  | Scalar t => mapM (fun v => op v t) x_val
  | Subset s =>
      if (length s =? length x_val)%nat then mapM2 op x_val s
      else match s, x_val with
           | [t], _ => mapM (fun v => op v t) x_val
           | _, [v] => mapM (op v) s
           | _, _ => Raise fail
           end
  end.

(** [.astype(int)] *)
Definition astype_int (a : list bool) : list Z :=
  map (fun b : bool => if b then 1 else 0) a.

(** [np.asscalar(np.array(a))]: only an array of size one converts. *)
Definition asscalar (a : list Z) : res Z :=
  match a with
  | [i] => Ok i
  | _ => Raise ValueError
  end.

Definition np_sum (a : list Z) : Z := fold_right Z.add 0 a.

(** ** The two helpers imported from [.util] *)

(** Modelled from the spec: the sum [Σ (count_i/total)²] inside [util.gini]. *)
Definition sum_squares (counts : list Z) (total : Z) : Q :=
  fold_right Qplus 0%Q
    (map (fun c => (inject_Z c / inject_Z total)
                   * (inject_Z c / inject_Z total))%Q counts).

(** Modelled from the spec: [util.gini], which is not part of the sources at
    hand.  The impurity of a class-count vector is [1 - Σ (count_i/total)²];
    with [total = 0] the quotient is undefined and the result is [nan]. *)
Definition gini (counts : list Z) (total : Z) : fl :=
  if total =? 0 then nan else Some (1 - sum_squares counts total)%Q.

(** ** Split rules: the two closures [grow_tree] stores in a node *)

Inductive rule : Type :=
| RuleGt (best_thr : threshold)   (* lambda x_val: (x_val > best_thr).astype(int) *)
| RuleEq (best_thr : threshold).  (* lambda x_val: (x_val == best_thr).astype(int) *)

(** Calling the stored closure on [x_val] (a column, or a single value as a
    one-element list).  When [==] cannot broadcast it answers the Python
    [False], on which [.astype] raises AttributeError. *)
Definition apply_rule (r : rule) (x_val : list (option Z)) : res (list Z) :=
  match r with
  | RuleGt thr => b <- broadcast py_gt ValueError x_val thr ;; Ok (astype_int b)
  | RuleEq thr => b <- broadcast py_eq AttributeError x_val thr ;; Ok (astype_int b)
  end.

(** ** Tree nodes *)

Inductive tree : Type :=
| Node (name : string) (split_rule : option rule) (split_feature : option nat)
       (children : list tree) (class_counts : list Z) (n_subset : Z).

Definition name (t : tree) : string :=
  match t with Node n _ _ _ _ _ => n end.
Definition split_rule (t : tree) : option rule :=
  match t with Node _ r _ _ _ _ => r end.
Definition split_feature (t : tree) : option nat :=
  match t with Node _ _ f _ _ _ => f end.
Definition children (t : tree) : list tree :=
  match t with Node _ _ _ c _ _ => c end.
Definition class_counts (t : tree) : list Z :=
  match t with Node _ _ _ _ cc _ => cc end.
Definition n_subset (t : tree) : Z :=
  match t with Node _ _ _ _ _ n => n end.

Definition set_split (t : tree) (r : option rule) (f : option nat) : tree :=
  match t with Node n _ _ c cc ns => Node n r f c cc ns end.
Definition set_children (t : tree) (c : list tree) : tree :=
  match t with Node n r f _ cc ns => Node n r f c cc ns end.

(** [DecisionTreeClassification(class_counts, n_subset, name)]: a fresh node,
    no split, no children. *)
Definition new_node (nm : string) (cc : list Z) (ns : Z) : tree :=
  Node nm None None [] cc ns.

(** What may be handed to the [children] setter. *)
Inductive pyobj : Type :=
| ObjTree (t : tree)
| ObjOther.

(** The body of the setter's loop: each element is checked, then appended;
    elements appended before a failing check stay appended. *)
Fixpoint append_children (cur : list tree) (new : list pyobj)
  : list tree * option exn :=
  match new with
  | [] => (cur, None)
  | ObjTree t :: rest => append_children (cur ++ [t]) rest
  | ObjOther :: _ => (cur, Some AssertionError)
  end.

(** [self.children = new]: the node afterwards, and the exception if one was
    raised. *)
Definition children_setter (self : tree) (new : list pyobj) : tree * option exn :=
  if (length new =? 2)%nat then
    let (c, e) := append_children (children self) new in (set_children self c, e)
  else (self, Some AssertionError).

Section Deleter.

(** Python's [==] on nodes.  The class defines no [__eq__], so this is
    object identity; all that is used of it is that it is reflexive. *)
Variable same : tree -> tree -> bool.

(** [l.remove(x)]: drop the first element equal to [x]; ValueError when
    there is none. *)
Fixpoint list_remove (x : tree) (l : list tree) : res (list tree) :=
  match l with
  | [] => Raise ValueError
  | h :: t => if same x h then Ok t else t' <- list_remove x t ;; Ok (h :: t')
  end.

(** [for child in l: l.remove(child)], the list iterator being at position
    [i].  The iterator re-reads the list at each step.  [None] only when
    [fuel] runs out. *)
Fixpoint deleter_loop (fuel i : nat) (l : list tree) : option (res (list tree)) :=
  match nth_error l i with
  | None => Some (Ok l)
  | Some child =>
      match fuel with
      | O => None
      | S fuel' =>
          match list_remove child l with
          | Ok l' => deleter_loop fuel' (S i) l'
          | Raise e => Some (Raise e)
          end
      end
  end.

(** [del self.children] *)
Definition children_deleter (self : tree) : option (res tree) :=
  match deleter_loop (length (children self)) 0 (children self) with
  | Some (Ok l) => Some (Ok (set_children self l))
  | Some (Raise e) => Some (Raise e)
  | None => None
  end.

End Deleter.

(** ** Traversal *)

(** [self.split_rule(x[self.split_feature])], the statement inside [try].
    Indexing a list with [None] and calling [None] both raise TypeError. *)
Definition eval_split (self : tree) (x : list (option Z)) : res (list Z) :=
  match split_feature self with
  | None => Raise TypeError
  | Some f =>
      match nth_error x f with
      | None => Raise IndexError
      | Some x_val =>
          match split_rule self with
          | None => Raise TypeError
          | Some r => apply_rule r [x_val]
          end
      end
  end.

(** [traverse].  [self.children is None] never holds ([_children] is always
    a list), so the first test is always skipped. *)
Fixpoint traverse (self : tree) (x : list (option Z)) : res tree :=
  match eval_split self x with
  | Raise TypeError => Ok self
  | Raise e => Raise e
  | Ok child_index =>
      match asscalar child_index with
      | Raise e => Raise e
      | Ok i =>
          (fix pick (cs : list tree) (k : nat) {struct cs} : res tree :=
             match cs, k with
             | [], _ => Raise IndexError
             | c :: _, O => traverse c x
             | _ :: cs', S k' => pick cs' k'
             end) (children self) (Z.to_nat i)
      end
  end.

(** ** Split search and growth *)

Definition size {A : Type} (a : list A) : Z := Z.of_nat (length a).

Definition string_of_nat (n : nat) : string :=
  NilEmpty.string_of_uint (Nat.to_uint n).

(** What [_best_split_classification] returns:
    [(best_thr, impurity, best_left_dist, best_right_dist)]. *)
Record split : Type := Split {
  best_thr : option threshold;
  impurity : fl;
  best_left_dist : option (list Z);
  best_right_dist : option (list Z)
}.

(** The variables [grow_tree] carries through its loop over the features.
    [best_thr, best_p_ind, best_type] are assigned together, so they are
    either all still [None] ([chosen = None]) or hold the triple of the last
    improving feature, whose threshold may itself be [None].
    [left_distribution] and [right_distribution] are assigned at every
    iteration; they are unbound ([None] here) only before the first one. *)
Record search : Type := Search {
  best_gini : fl;
  chosen : option (option threshold * nat * string);
  left_distribution : option (list Z);
  right_distribution : option (list Z)
}.

(** The outcome of a call of [grow_tree]: the node as the call leaves it, on
    return or at the point where an exception escapes. *)
Inductive grown : Type :=
| Returned (self : tree)
| Raised (e : exn) (self : tree)
| OutOfFuel.

Section Growth.

(** [util.find_splits], the candidate generator for categorical features,
    is not part of the sources at hand; growth is parametrised by it. *)
Variable find_splits : list Z -> list threshold.

Definition possible_thresholds (data_type : string) (feature_values : list Z)
  : list threshold :=
  if String.eqb data_type "c" then find_splits (np_unique feature_values)
  else map Scalar (np_unique feature_values).

(** [np.isin(feature_values, threshold)] or [feature_values > threshold] *)
Definition selection (data_type : string) (feature_values : list Z)
  (thr : threshold) : res (list bool) :=
  if String.eqb data_type "c" then Ok (isin feature_values (elements thr))
  else broadcast py_gt ValueError (map Some feature_values) thr.

(** The counts of [labels] laid out over [classes]. *)
Definition class_distribution (classes labels : list Z) : res (list Z) :=
  let (unique, distribution) := np_unique_counts labels in
  assign_masked (isin classes unique) distribution.

(** One iteration of the loop over the candidates, up to the comparison:
    [(gini_split, left_distribution, right_distribution)]. *)
Definition evaluate (feature_values labels : list Z) (data_type : string)
  (classes : list Z) (thr : threshold) : res (fl * list Z * list Z) :=
  let num_labels := size labels in
  sel <- selection data_type feature_values thr ;;
  right <- mask_index labels sel ;;
  left <- mask_index labels (map negb sel) ;;
  let num_right := size right in
  new_right <- class_distribution classes right ;;
  new_left <- class_distribution classes left ;;
  let gini_right := gini new_right num_right in
  let gini_left := gini new_left (num_labels - num_right) in
  let gini_split :=
    div (add (mul (of_Z num_right) gini_right)
             (mul (of_Z (num_labels - num_right)) gini_left))
        (of_Z num_labels) in
  Ok (gini_split, new_left, new_right).

Definition split_step (feature_values labels : list Z) (data_type : string)
  (classes : list Z) (st : split) (thr : threshold) : res split :=
  '(gini_split, l, r) <- evaluate feature_values labels data_type classes thr ;;
  if ltb gini_split (impurity st)
  then Ok (Split (Some thr) gini_split (Some l) (Some r))
  else Ok st.

Fixpoint split_loop (feature_values labels : list Z) (data_type : string)
  (classes : list Z) (cands : list threshold) (st : split) : res split :=
  match cands with
  | [] => Ok st
  | thr :: rest =>
      st' <- split_step feature_values labels data_type classes st thr ;;
      split_loop feature_values labels data_type classes rest st'
  end.

Definition _best_split_classification (feature_values labels : list Z)
  (data_type : string) (classes : list Z) : res split :=
  split_loop feature_values labels data_type classes
    (possible_thresholds data_type feature_values)
    (Split None one None None).

(** One iteration of [grow_tree]'s loop over the features. *)
Definition feature_step (X : list (list Z)) (y : list Z) (classes : list Z)
  (st : search) (it : nat * string) : res search :=
  let (idx, data_type) := it in
  let x := nth idx X [] in
  r <- _best_split_classification x y data_type classes ;;
  if ltb (impurity r) (best_gini st)
  then Ok (Search (impurity r) (Some (best_thr r, idx, data_type))
                  (best_left_dist r) (best_right_dist r))
  else Ok (Search (best_gini st) (chosen st)
                  (best_left_dist r) (best_right_dist r)).

Fixpoint feature_loop (X : list (list Z)) (y : list Z) (classes : list Z)
  (its : list (nat * string)) (st : search) : res search :=
  match its with
  | [] => Ok st
  | it :: rest =>
      st' <- feature_step X y classes st it ;;
      feature_loop X y classes rest st'
  end.

(** Lines 116-124: the state after the loop over
    [zip(range(X.shape[1]), data_types)]. *)
Definition search_features (X : list (list Z)) (y : list Z)
  (data_types : list string) (bg : fl) (classes : list Z) : res search :=
  feature_loop X y classes (combine (seq 0 (length X)) data_types)
    (Search bg None None None).

(** Lines 131-134. *)
Definition make_rule (ty : string) (thr : threshold) : rule :=
  if String.eqb ty "n" || String.eqb ty "o" then RuleGt thr else RuleEq thr.

(** Lines 137-141: [(right_y, right_x, left_y, left_x)]. *)
Definition realize (r : rule) (X : list (list Z)) (y : list Z) (p : nat)
  : res (list Z * list (list Z) * list Z * list (list Z)) :=
  splits <- apply_rule r (map Some (nth p X [])) ;;
  let is1 := map (Z.eqb 1) splits in
  let is0 := map (Z.eqb 0) splits in
  right_y <- mask_index y is1 ;;
  right_x <- mapM (fun col => mask_index col is1) X ;;
  left_y <- mask_index y is0 ;;
  left_x <- mapM (fun col => mask_index col is0) X ;;
  Ok (right_y, right_x, left_y, left_x).

Definition too_deep (max_depth : option Z) (current_depth : Z) : bool :=
  match max_depth with
  | Some d => current_depth >? d
  | None => false
  end.

Definition child_name (self : tree) (p : nat) (suffix : string) : string :=
  (name self ++ "_" ++ string_of_nat p ++ suffix)%string.

Fixpoint grow_tree (fuel : nat) (self : tree) (X : list (list Z)) (y : list Z)
  (data_types : list string) (bg : fl) (classes : list Z)
  (min_size : Z) (max_depth : option Z) (current_depth : Z) (max_gini : fl)
  {struct fuel} : grown :=
  match fuel with
  | O => OutOfFuel
  | S fuel' =>
    if (size y <? min_size) || Float.eqb bg (of_Z 0) then Returned self
    else if too_deep max_depth current_depth then Returned self
    else
      match search_features X y data_types bg classes with
      | Raise e => Raised e self
      | Ok s =>
        match chosen s with
        | Some (Some thr, p, ty) =>
          if ltb (best_gini s) max_gini then
            let r := make_rule ty thr in
            let self1 := set_split self (Some r) (Some p) in
            match realize r X y p with
            | Raise e => Raised e self1
            | Ok (right_y, right_x, left_y, left_x) =>
              if (size right_y <? min_size) || (size left_y <? min_size)
              then Returned (set_split self1 None None)
              else
                match left_distribution s, right_distribution s with
                | Some ld, Some rd =>
                  let left_tree :=
                    new_node (child_name self p "_child1") ld (np_sum ld) in
                  match grow_tree fuel' left_tree left_x left_y data_types
                          (gini ld (size left_y)) classes min_size max_depth
                          (current_depth + 1) one with
                  | OutOfFuel => OutOfFuel
                  | Raised e _ => Raised e self1
                  | Returned left_tree' =>
                    let right_tree :=
                      new_node (child_name self p "_child2") rd (np_sum rd) in
                    match grow_tree fuel' right_tree right_x right_y data_types
                            (gini rd (size right_y)) classes min_size max_depth
                            (current_depth + 1) one with
                    | OutOfFuel => OutOfFuel
                    | Raised e _ => Raised e self1
                    | Returned right_tree' =>
                      match children_setter self1
                              [ObjTree left_tree'; ObjTree right_tree'] with
                      | (self2, None) => Returned self2
                      | (self2, Some e) => Raised e self2
                      end
                    end
                  end
                | _, _ =>
                  (* [np.sum] and [gini] on [None] *)
                  Raised TypeError self1
                end
            end
          else Returned self
        | _ => Returned self
        end
      end
  end.

End Growth.

(** Modelled from the spec: a candidate generator that enumerates every
    single-value subset. *)
Definition singletons (unique_values : list Z) : list threshold :=
  map (fun v => Subset [v]) unique_values.

(** Modelled from the spec: the two-value subsets a candidate generator may
    add to the single-value ones. *)
Fixpoint pairs (l : list Z) : list threshold :=
  match l with
  | [] => []
  | a :: t => map (fun b => Subset [a; b]) t ++ pairs t
  end.

(** Modelled from the spec: the single-value subsets followed by the
    two-value subsets. *)
Definition singles_and_pairs (unique_values : list Z) : list threshold :=
  singletons unique_values ++ pairs unique_values.

(** ** Predicates used in the statements below *)

(** A stand-in for Python's [==] on nodes in examples: nodes with different
    names are different objects. *)
Definition same_name (a b : tree) : bool := String.eqb (name a) (name b).

(** The boolean array the stored closure computes before [.astype(int)]. *)
Definition rule_mask (r : rule) (x_val : list (option Z)) : res (list bool) :=
  match r with
  | RuleGt thr => broadcast py_gt ValueError x_val thr
  | RuleEq thr => broadcast py_eq AttributeError x_val thr
  end.


(** The threshold a search holds, if any, is one of the candidates and
    sends examples to both sides. *)
Definition two_sided (fv labels : list Z) (dt : string) (classes : list Z)
  (cands : list threshold) (thr : threshold) : Prop :=
  In thr cands
  /\ exists q l r, evaluate fv labels dt classes thr = Ok (Some q, l, r).

(** The invariant of the loop over the features. *)
Definition sound_choice (find_splits : list Z -> list threshold)
  (X : list (list Z)) (y : list Z) (classes : list Z)
  (s : search) : Prop :=
  forall thr p ty, chosen s = Some (Some thr, p, ty) ->
    two_sided (nth p X []) y ty classes
      (possible_thresholds find_splits ty (nth p X [])) thr.

(** Every node of [t] carries, as [n_subset], the sum of its own
    [class_counts]. *)
Fixpoint counts_consistent (t : tree) : Prop :=
  n_subset t = np_sum (class_counts t)
  /\ (fix all (cs : list tree) : Prop :=
        match cs with
        | [] => True
        | c :: rest => counts_consistent c /\ all rest
        end) (children t).

(** ** More of the module: the constructor, and shapes of trees *)

(** [DecisionTreeClassification(class_counts, n_subset, name, children,
    split_rule, split_feature)]: the parent constructor stores the name and
    the split fields, starts from [_children = []] and goes through the
    [children] setter when [children] is not [None]; then the two statistics
    are stored.  An exception raised by the setter leaves no object. *)
Definition init_classification (cc : list Z) (ns : Z) (nm : string)
  (children : option (list pyobj)) (r : option rule) (f : option nat)
  : res tree :=
  let self := Node nm r f [] cc ns in
  match children with
  | None => Ok self
  | Some new =>
      match children_setter self new with
      | (self', None) => Ok self'
      | (_, Some e) => Raise e
      end
  end.

(** The elements at the odd positions 1, 3, 5, ... of a list. *)
Fixpoint odds {A : Type} (l : list A) : list A :=
  match l with
  | _ :: y :: rest => y :: odds rest
  | _ => []
  end.

(** The objects of [l] are pairwise different for [same], each compared
    with the ones before it. *)
Definition pairwise_different (same : tree -> tree -> bool) (l : list tree)
  : Prop :=
  ForallOrdPairs (fun a b => same b a = false) l.

(** The number of edges on the longest path from [t] down to a node
    without children. *)
Fixpoint height (t : tree) : nat :=
  match t with
  | Node _ _ _ cs _ _ =>
      (fix below (l : list tree) : nat :=
         match l with
         | [] => O
         | c :: rest => Nat.max (S (height c)) (below rest)
         end) cs
  end.

(** A tree in which every node either has no children and no split fields,
    or has exactly two children, a split feature and a split rule that
    satisfy [P]. *)
Inductive shaped (P : rule -> nat -> Prop) : tree -> Prop :=
| shaped_leaf (nm : string) (cc : list Z) (ns : Z) :
    shaped P (Node nm None None [] cc ns)
| shaped_split (nm : string) (r : rule) (p : nat) (l rt : tree)
    (cc : list Z) (ns : Z) :
    P r p -> shaped P l -> shaped P rt ->
    shaped P (Node nm (Some r) (Some p) [l; rt] cc ns).

(** The rule [grow_tree] stores for column [p] under the tags
    [data_types], over [ncols] columns: [>] with a single value as threshold
    for a numeric or ordinal column, [==] for any other. *)
Definition rule_for (ncols : nat) (data_types : list string)
  (r : rule) (p : nat) : Prop :=
  (p < ncols)%nat
  /\ exists ty thr,
       nth_error data_types p = Some ty
       /\ r = make_rule ty thr
       /\ (ty <> "c" -> exists t, thr = Scalar t).

(** All the values of a column are the same. *)
Definition constant (col : list Z) : Prop :=
  forall a b, In a col -> In b col -> a = b.

(** The invariant of the loop over the candidates, [seen] being the
    candidates already visited: the running best is a number, no visited
    candidate is strictly below it, and it is either the initial state or
    the evaluation of a visited candidate, below 1. *)
Definition search_inv (fv labels : list Z) (dt : string) (classes : list Z)
  (seen : list threshold) (st : split) : Prop :=
  (forall c g l r, In c seen ->
     evaluate fv labels dt classes c = Ok (g, l, r) ->
     ltb g (impurity st) = false)
  /\ match best_thr st with
     | Some c =>
         In c seen
         /\ ltb (impurity st) one = true
         /\ exists l r,
              evaluate fv labels dt classes c = Ok (impurity st, l, r)
              /\ best_left_dist st = Some l /\ best_right_dist st = Some r
     | None => st = Split None one None None
     end.

(** The invariant of the loop over the features, [seen] being the
    (index, tag) pairs already visited and [bg] the impurity the loop
    started from. *)
Definition features_inv (find_splits : list Z -> list threshold)
  (X : list (list Z)) (y : list Z) (classes : list Z) (bg : fl)
  (seen : list (nat * string)) (s : search) : Prop :=
  (forall p ty r, In (p, ty) seen ->
     _best_split_classification find_splits (nth p X []) y ty classes = Ok r ->
     ltb (impurity r) (best_gini s) = false)
  /\ match chosen s with
     | None => best_gini s = bg
     | Some (thr, p, ty) =>
         ltb (best_gini s) bg = true
         /\ In (p, ty) seen
         /\ exists r,
              _best_split_classification find_splits (nth p X []) y ty classes
              = Ok r
              /\ impurity r = best_gini s /\ best_thr r = thr
     end.

(** Induction on trees that reaches the children. *)
Fixpoint tree_rect_children (P : tree -> Prop)
  (step : forall nm r f cs cc ns, Forall P cs -> P (Node nm r f cs cc ns))
  (t : tree) : P t :=
  match t with
  | Node nm r f cs cc ns =>
      step nm r f cs cc ns
        ((fix all (l : list tree) : Forall P l :=
            match l with
            | [] => Forall_nil P
            | c :: rest => Forall_cons c (tree_rect_children P step c) (all rest)
            end) cs)
  end.

(** [n] is [t] or a node below it. *)
Inductive within (n : tree) : tree -> Prop :=
| within_self : within n n
| within_child (t c : tree) : In c (children t) -> within n c -> within n t.


(** * Properties *)

(** ** The NumPy operations *)

Lemma insert_sorted_In (v x : Z) (l : list Z) :
  In x (insert_sorted v l) <-> x = v \/ In x l.
Proof.
  induction l as [| h t IH]; simpl.
  - intuition.
  - destruct (Z.ltb_spec v h); [simpl; intuition |].
    destruct (Z.eqb_spec v h); simpl; [subst; intuition |].
    rewrite IH. intuition.
Qed.

Lemma np_unique_In (x : Z) (a : list Z) : In x (np_unique a) <-> In x a.
Proof.
  induction a as [| h t IH]; simpl; [reflexivity |].
  rewrite insert_sorted_In, IH. intuition.
Qed.

Lemma insert_sorted_ascending (v : Z) (l : list Z) :
  StronglySorted Z.lt l -> StronglySorted Z.lt (insert_sorted v l).
Proof.
  induction l as [| h t IH]; intros Hs; simpl.
  - repeat constructor.
  - inversion Hs as [| ? ? Ht Hall]; subst.
    destruct (Z.ltb_spec v h) as [Hlt | Hge].
    + constructor; [assumption |]. constructor; [assumption |].
      eapply Forall_impl; [| exact Hall]. intros; lia.
    + destruct (Z.eqb_spec v h) as [-> | Hne]; [assumption |].
      constructor; [auto |].
      apply Forall_forall. intros x Hx. apply insert_sorted_In in Hx.
      destruct Hx as [-> | Hx]; [lia |].
      rewrite Forall_forall in Hall. auto.
Qed.

Lemma np_unique_ascending (a : list Z) : StronglySorted Z.lt (np_unique a).
Proof.
  induction a as [| h t IH]; simpl; [constructor |].
  now apply insert_sorted_ascending.
Qed.

Lemma np_unique_length (a : list Z) : (length (np_unique a) <= length a)%nat.
Proof.
  induction a as [| h t IH]; simpl; [lia |].
  assert (H : forall l, (length (insert_sorted h l) <= S (length l))%nat).
  { induction l as [| x l IHl]; simpl; [lia |].
    destruct (h <? x); [simpl; lia |]. destruct (h =? x); simpl; lia. }
  specialize (H (np_unique t)). lia.
Qed.

Lemma mem_In (v : Z) (s : list Z) : mem v s = true <-> In v s.
Proof.
  unfold mem. rewrite existsb_exists. split.
  - intros (x & Hx & E). apply Z.eqb_eq in E. now subst.
  - intros H. exists v. split; [assumption | apply Z.eqb_refl].
Qed.

Lemma isin_single (col : list Z) (t : Z) :
  isin col [t] = map (fun z => z =? t) col.
Proof.
  unfold isin. apply map_ext. intros z. simpl. apply orb_false_r.
Qed.

(** A proper subset of the distinct values of a column is shorter than the
    column. *)
Lemma subset_shorter (col s : list Z) (v : Z) :
  NoDup s -> incl s (np_unique col) -> In v col -> ~ In v s ->
  (length s < length col)%nat.
Proof.
  intros Hnd Hincl Hv Hnot.
  assert (Hle : (length (v :: s) <= length (np_unique col))%nat).
  { apply NoDup_incl_length.
    - now constructor.
    - intros x [<- | Hx]; [now apply np_unique_In | auto]. }
  pose proof (np_unique_length col). simpl in Hle. lia.
Qed.

Lemma select_length_le {A : Type} (a : list A) (m : list bool) :
  (length (select a m) <= length a)%nat.
Proof.
  revert m. induction a as [| x a IH]; intros [| b m]; simpl; try lia.
  specialize (IH m). destruct b; simpl; lia.
Qed.

Lemma select_shrinks {A : Type} (a : list A) (m : list bool) :
  length m = length a -> In false m ->
  (length (select a m) < length a)%nat.
Proof.
  revert m. induction a as [| x a IH]; intros [| b m]; simpl;
    try discriminate; try contradiction.
  intros Hlen [-> | Hin].
  - pose proof (select_length_le a m). lia.
  - injection Hlen as Hlen. specialize (IH m Hlen Hin).
    destruct b; simpl; lia.
Qed.

Lemma select_nonempty_true {A : Type} (a : list A) (m : list bool) :
  select a m <> [] -> In true m.
Proof.
  revert m. induction a as [| x a IH]; intros [| b m]; simpl; try congruence.
  destruct b; [now left | right; auto].
Qed.

Lemma select_short_false {A : Type} (a : list A) (m : list bool) :
  length m = length a -> length (select a m) <> length a -> In false m.
Proof.
  revert m. induction a as [| x a IH]; intros [| b m]; simpl; try congruence.
  intros Hlen Hne. injection Hlen as Hlen.
  destruct b; [right | now left].
  apply IH; [assumption |]. simpl in Hne. congruence.
Qed.

Lemma select_split_length {A : Type} (a : list A) (m : list bool) :
  length m = length a ->
  (length (select a m) + length (select a (map negb m)) = length a)%nat.
Proof.
  revert m. induction a as [| x a IH]; intros [| b m]; simpl; try congruence.
  intros Hlen. injection Hlen as Hlen. specialize (IH m Hlen).
  destruct b; simpl; lia.
Qed.


Lemma mask_index_Ok {A : Type} (a : list A) (m : list bool) (r : list A) :
  mask_index a m = Ok r -> length m = length a /\ r = select a m.
Proof.
  unfold mask_index. destruct (Nat.eqb_spec (length m) (length a));
    [intros [= <-]; auto | discriminate].
Qed.


Lemma astype_int_is1 (b : list bool) : map (Z.eqb 1) (astype_int b) = b.
Proof.
  unfold astype_int. rewrite map_map. rewrite <- (map_id b) at 2.
  apply map_ext. now intros [|].
Qed.

Lemma astype_int_is0 (b : list bool) : map (Z.eqb 0) (astype_int b) = map negb b.
Proof.
  unfold astype_int. rewrite map_map. apply map_ext. now intros [|].
Qed.

Lemma mapM_py_gt (col : list Z) (t : Z) :
  mapM (fun v => py_gt v t) (map Some col) = Ok (map (fun z => z >? t) col).
Proof.
  induction col as [| z col IH]; simpl; [reflexivity |]. now rewrite IH.
Qed.

Lemma mapM_py_eq (col : list Z) (t : Z) :
  mapM (fun v => py_eq v t) (map Some col) = Ok (map (fun z => z =? t) col).
Proof.
  induction col as [| z col IH]; simpl; [reflexivity |]. now rewrite IH.
Qed.

(** ** Floats and the impurity *)

Lemma Qltb_lt (x y : Q) : Qltb x y = true <-> (x < y)%Q.
Proof.
  unfold Qltb. rewrite negb_true_iff. split.
  - intros H. apply Qnot_le_lt. intros Hle.
    apply Qle_bool_iff in Hle. congruence.
  - intros H. destruct (Qle_bool y x) eqn:E; [| reflexivity].
    apply Qle_bool_iff in E. exfalso. exact (Qlt_not_le _ _ H E).
Qed.

Lemma ltb_trans (a b c : fl) : ltb a b = true -> ltb b c = true -> ltb a c = true.
Proof.
  destruct a as [x |], b as [y |], c as [z |]; simpl; try discriminate.
  rewrite !Qltb_lt. apply Qlt_trans.
Qed.







Lemma weighted_defined (a b c gr gl : fl) (q : Q) :
  div (add (mul a gr) (mul b gl)) c = Some q -> gr <> None /\ gl <> None.
Proof.
  destruct a, b, c, gr, gl; simpl; try discriminate; split; discriminate.
Qed.

(** ** Node-level operations *)

Lemma children_setter_rejects (self : tree) (new : list pyobj) :
  length new <> 2%nat ->
  children_setter self new = (self, Some AssertionError).
Proof.
  intros Hlen. unfold children_setter.
  destruct (Nat.eqb_spec (length new) 2) as [E | _]; [contradiction | reflexivity].
Qed.

Lemma children_setter_appends (self : tree) (c d : tree) :
  children_setter self [ObjTree c; ObjTree d]
  = (set_children self (children self ++ [c; d]), None).
Proof.
  unfold children_setter. simpl. now rewrite <- app_assoc.
Qed.

Lemma children_deleter_pair (same : tree -> tree -> bool) (self a b : tree) :
  same a a = true ->
  children self = [a; b] ->
  children_deleter same self = Some (Ok (set_children self [b])).
Proof.
  intros Hrefl Hc. unfold children_deleter. rewrite Hc. simpl.
  now rewrite Hrefl.
Qed.

Lemma list_remove_length (same : tree -> tree -> bool) (x : tree)
  (l l' : list tree) :
  list_remove same x l = Ok l' -> length l = S (length l').
Proof.
  revert l'. induction l as [| h t IH]; intros l'; simpl; [discriminate |].
  destruct (same x h); [now intros [= <-] |].
  destruct (list_remove same x t) as [t' |]; [| discriminate].
  cbn [bind]. intros [= <-]. simpl. now rewrite (IH t' eq_refl).
Qed.

(** The fuel [children_deleter] gives its loop is never used up. *)
Lemma deleter_loop_total (same : tree -> tree -> bool) (fuel : nat) :
  forall (i : nat) (l : list tree),
    (length l <= fuel + i)%nat -> deleter_loop same fuel i l <> None.
Proof.
  induction fuel as [| fuel IH]; intros i l Hlen; simpl.
  - destruct (nth_error l i) eqn:E; [| discriminate].
    assert (Hi : nth_error l i <> None) by congruence.
    apply nth_error_Some in Hi. lia.
  - destruct (nth_error l i) as [child |]; [| discriminate].
    destruct (list_remove same child l) as [l' | e] eqn:Hrm; [| discriminate].
    apply IH. apply list_remove_length in Hrm. lia.
Qed.

(** C4 (the code departs from the claim).  A node that holds the pair
    [a; b] keeps [b] as its only child after [del self.children], and holds
    four children after a second assignment of a pair: the deleter's loop
    skips every other element because it removes from the list it iterates
    over, and the setter appends to the children already there. *)
Theorem children_property_breaks_pair_invariant
  (same : tree -> tree -> bool) (self a b c d : tree) :
  (forall t, same t t = true) ->
  children self = [a; b] ->
  children_deleter same self = Some (Ok (set_children self [b]))
  /\ children_setter self [ObjTree c; ObjTree d]
     = (set_children self [a; b; c; d], None).
Proof.
  intros Hrefl Hc. split.
  - apply children_deleter_pair with (a := a); auto.
  - rewrite children_setter_appends, Hc. reflexivity.
Qed.

Lemma children_property_breaks_pair_invariant_witness :
  let a := new_node "a" [1] 1 in
  let b := new_node "b" [1] 1 in
  let self := Node "root" None None [a; b] [1; 1] 2 in
  children_deleter same_name self = Some (Ok (set_children self [b]))
  /\ children_setter self [ObjTree a; ObjTree b]
     = (set_children self [a; b; a; b], None).
Proof.
  intros a b self.
  apply (children_property_breaks_pair_invariant same_name self a b a b).
  - intros t. unfold same_name. apply String.eqb_refl.
  - reflexivity.
Defined.

(** ** Traversal *)

Lemma eval_split_none_numeric (self : tree) (x : list (option Z)) (f : nat)
  (thr : threshold) :
  split_feature self = Some f ->
  split_rule self = Some (RuleGt thr) ->
  elements thr <> [] ->
  nth_error x f = Some None ->
  eval_split self x = Raise TypeError.
Proof.
  intros Hf Hr Hne Hx. unfold eval_split. rewrite Hf, Hx, Hr.
  destruct thr as [t | s]; simpl.
  - reflexivity.
  - destruct s as [| t s']; [now elim Hne |].
    destruct s'; reflexivity.
Qed.



(** ** Split search: candidates, impurities and ties *)


(** A candidate whose weighted impurity is a number, not [nan], sends at
    least one example to each side. *)
Lemma evaluate_two_sided (fv labels : list Z) (dt : string) (classes : list Z)
  (thr : threshold) (q : Q) (l r : list Z) :
  evaluate fv labels dt classes thr = Ok (Some q, l, r) ->
  exists sel,
    selection dt fv thr = Ok sel /\ length sel = length labels
    /\ In true sel /\ In false sel.
Proof.
  unfold evaluate. destruct (selection dt fv thr) as [sel | e]; [| discriminate].
  cbn [bind].
  destruct (mask_index labels sel) as [right | e] eqn:Hr; [| discriminate].
  apply mask_index_Ok in Hr. destruct Hr as [Hlen ->]. cbn [bind].
  destruct (mask_index labels (map negb sel)) as [left | e]; [| discriminate].
  cbn [bind].
  destruct (class_distribution classes (select labels sel)) as [nr | e];
    [| discriminate]. cbn [bind].
  destruct (class_distribution classes left) as [nl | e]; [| discriminate].
  cbn [bind]. intros H.
  apply (f_equal (fun x => match x with Ok (g, _, _) => g | Raise _ => None end))
    in H.
  cbv beta iota in H.
  apply weighted_defined in H. rename H into Hg. destruct Hg as [Hgr Hgl].
  exists sel. split; [reflexivity |]. split; [assumption |].
  unfold size in *. split.
  - apply select_nonempty_true with (a := labels).
    intros Hnil. rewrite Hnil in Hgr. now apply Hgr.
  - apply select_short_false with (a := labels); [assumption |].
    intros Heq. rewrite Heq, Z.sub_diag in Hgl. now apply Hgl.
Qed.


Lemma split_loop_two_sided (fv labels : list Z) (dt : string) (classes : list Z)
  (all cands : list threshold) (st st' : split) :
  incl cands all ->
  (forall thr, best_thr st = Some thr -> two_sided fv labels dt classes all thr) ->
  split_loop fv labels dt classes cands st = Ok st' ->
  forall thr, best_thr st' = Some thr -> two_sided fv labels dt classes all thr.
Proof.
  revert st. induction cands as [| c cands IH]; intros st Hincl Hst; simpl.
  - intros [= <-]. assumption.
  - destruct (split_step fv labels dt classes st c) as [st1 | e] eqn:Hstep;
      [| discriminate].
    cbn [bind]. apply IH.
    + intros x Hx. apply Hincl. now right.
    + unfold split_step in Hstep.
      destruct (evaluate fv labels dt classes c) as [[[g l] r] | e] eqn:He;
        [| discriminate].
      cbn [bind] in Hstep.
      destruct (ltb g (impurity st)) eqn:Hlt.
      * injection Hstep as <-. cbn [best_thr]. intros thr [= <-].
        split; [apply Hincl; now left |].
        destruct g as [q |]; [| discriminate]. eauto.
      * injection Hstep as <-. assumption.
Qed.

Section Ties.

Variables (feature_values labels : list Z) (data_type : string)
          (classes : list Z).

Local Abbreviation loop := (split_loop feature_values labels data_type classes).




End Ties.




(** ** Growth: node statistics *)

Lemma counts_consistent_unfold (t : tree) :
  counts_consistent t
  <-> n_subset t = np_sum (class_counts t) /\ Forall counts_consistent (children t).
Proof.
  destruct t as [n r f cs cc ns]. cbn [counts_consistent n_subset class_counts children].
  assert (H : forall l,
             (fix all (cs : list tree) : Prop :=
                match cs with
                | [] => True
                | c :: rest => counts_consistent c /\ all rest
                end) l <-> Forall counts_consistent l).
  { induction l as [| c l IH]; [split; auto |].
    split.
    - intros [Hc Hl]. constructor; [assumption | now apply IH].
    - intros Hf. inversion Hf; subst. split; [assumption | now apply IH]. }
  now rewrite H.
Qed.

Lemma counts_consistent_set_split (t : tree) (r : option rule) (f : option nat) :
  counts_consistent t -> counts_consistent (set_split t r f).
Proof.
  rewrite !counts_consistent_unfold. now destruct t.
Qed.

(** The part of the invariant that growth does keep: a node that
    [grow_tree] creates carries the sum of its own counts. *)
Lemma grow_tree_counts_consistent (find_splits : list Z -> list threshold)
  (fuel : nat) :
  forall (self : tree) (X : list (list Z)) (y : list Z)
    (data_types : list string) (bg : fl) (classes : list Z)
    (min_size : Z) (max_depth : option Z) (current_depth : Z) (max_gini : fl)
    (self' : tree),
    counts_consistent self ->
    grow_tree find_splits fuel self X y data_types bg classes
      min_size max_depth current_depth max_gini = Returned self' ->
    counts_consistent self'.
Proof.
  induction fuel as [| fuel IH]; intros self X y data_types bg classes
    min_size max_depth current_depth max_gini self' Hself; simpl;
    [discriminate |].
  destruct ((size y <? min_size) || Float.eqb bg (of_Z 0));
    [now intros [= <-] |].
  destruct (too_deep max_depth current_depth); [now intros [= <-] |].
  destruct (search_features find_splits X y data_types bg classes) as [s | e];
    [| discriminate].
  destruct (chosen s) as [[[[thr |] p] ty] |]; try now intros [= <-].
  destruct (ltb (best_gini s) max_gini); [| now intros [= <-]].
  destruct (realize (make_rule ty thr) X y p)
    as [[[[right_y right_x] left_y] left_x] | e]; [| discriminate].
  destruct ((size right_y <? min_size) || (size left_y <? min_size)).
  { intros [= <-]. now do 2 apply counts_consistent_set_split. }
  destruct (left_distribution s) as [ld |]; [| discriminate].
  destruct (right_distribution s) as [rd |]; [| discriminate].
  destruct (grow_tree find_splits fuel (new_node _ ld _) left_x left_y _ _ _ _ _ _ _)
    as [left_tree | |] eqn:HL; try discriminate.
  destruct (grow_tree find_splits fuel (new_node _ rd _) right_x right_y _ _ _ _ _ _ _)
    as [right_tree | |] eqn:HR; try discriminate.
  apply IH in HL; [| apply counts_consistent_unfold; split; [reflexivity | constructor]].
  apply IH in HR; [| apply counts_consistent_unfold; split; [reflexivity | constructor]].
  intros [= <-].
  apply counts_consistent_unfold in Hself. destruct Hself as [Hn Hcs].
  apply counts_consistent_unfold. destruct self as [n r f cs cc ns].
  cbn in *. split; [assumption |].
  rewrite <- app_assoc. apply Forall_app. split; [assumption |].
  repeat constructor; assumption.
Qed.

(** ** Growth: what the code does on concrete datasets *)

(** C1 (the code departs from the claim).  Two numeric features, four
    examples.  Feature 0 separates the classes (impurity 0, children
    [2; 0] and [0; 2]) and is the one committed; the children are
    nevertheless built with [1; 1] and [1; 1], the distributions of the
    search on feature 1, the last column visited: the loop over the features
    overwrites [left_distribution] and [right_distribution] at every
    iteration instead of keeping them with the running best. *)
Theorem children_get_last_feature_distributions (find_splits : list Z -> list threshold) :
  let X := [[1; 1; 6; 6]; [1; 2; 1; 2]] in
  let y := [0; 0; 1; 1] in
  let classes := [0; 1] in
  (exists r, _best_split_classification find_splits (nth 0 X []) y "n" classes = Ok r
             /\ best_thr r = Some (Scalar 1)
             /\ best_left_dist r = Some [2; 0]
             /\ best_right_dist r = Some [0; 2])
  /\ (exists r, _best_split_classification find_splits (nth 1 X []) y "n" classes = Ok r
             /\ best_left_dist r = Some [1; 1]
             /\ best_right_dist r = Some [1; 1])
  /\ grow_tree find_splits 5 (new_node "root" [2; 2] 4) X y ["n"; "n"]
       (gini [2; 2] 4) classes 2 None 0 one
     = Returned
         (Node "root" (Some (RuleGt (Scalar 1))) (Some 0%nat)
            [Node "root_0_child1" None None [] [1; 1] 2;
             Node "root_0_child2" None None [] [1; 1] 2]
            [2; 2] 4).
Proof.
  cbv zeta. split; [| split].
  - eexists. split; [vm_compute; reflexivity |]. repeat split.
  - eexists. split; [vm_compute; reflexivity |]. repeat split.
  - vm_compute. reflexivity.
Qed.

(** C3 (the code departs from the claim).  With [max_depth = 0] the root,
    grown at [current_depth = 0], is split and gets two children: the depth
    test is [current_depth > max_depth], which only stops the children. *)
Theorem max_depth_zero_still_splits_root (find_splits : list Z -> list threshold) :
  grow_tree find_splits 5 (new_node "root" [2; 2] 4) [[1; 1; 6; 6]] [0; 0; 1; 1]
    ["n"] (gini [2; 2] 4) [0; 1] 2 (Some 0) 0 one
  = Returned
      (Node "root" (Some (RuleGt (Scalar 1))) (Some 0%nat)
         [Node "root_0_child1" None None [] [2; 0] 2;
          Node "root_0_child2" None None [] [0; 2] 2]
         [2; 2] 4).
Proof. vm_compute. reflexivity. Qed.

(** C2 (the code departs from the claim).  For a categorical feature the
    search tests membership, [np.isin], but the rule stored in the node
    tests [==].  With the two-value candidate [{1, 2}]: the search routes the
    value 2 right, the stored rule answers the array [0, 1] on it, which
    [traverse] cannot turn into a child index, and on the training column
    [1, 2, 3, 4] the comparison does not broadcast, so that [grow_tree]
    raises after having set the node's split fields. *)
Theorem categorical_rule_is_equality_not_membership :
  let cand := Subset [1; 2] in
  let leaf := new_node "leaf" [1] 1 in
  selection "c" [2] cand = Ok [true]
  /\ make_rule "c" cand = RuleEq cand
  /\ apply_rule (make_rule "c" cand) [Some 2] = Ok [0; 1]
  /\ traverse (Node "root" (Some (make_rule "c" cand)) (Some 0%nat)
                 [leaf; leaf] [1; 1] 2) [Some 2] = Raise ValueError
  /\ (exists r, _best_split_classification singles_and_pairs [1; 2; 3; 4]
                  [0; 0; 1; 1] "c" [0; 1] = Ok r /\ best_thr r = Some cand)
  /\ grow_tree singles_and_pairs 5 (new_node "root" [2; 2] 4) [[1; 2; 3; 4]]
       [0; 0; 1; 1] ["c"] (gini [2; 2] 4) [0; 1] 1 None 0 one
     = Raised AttributeError
         (Node "root" (Some (RuleEq cand)) (Some 0%nat) [] [2; 2] 4).
Proof.
  cbv zeta. split; [| split; [| split; [| split; [| split]]]].
  - vm_compute. reflexivity.
  - reflexivity.
  - vm_compute. reflexivity.
  - vm_compute. reflexivity.
  - eexists. split; [vm_compute; reflexivity | reflexivity].
  - vm_compute. reflexivity.
Qed.

(** C8 (the code departs from the claim).  Six examples, three classes, two
    numeric features.  The root commits feature 0, which sends four examples
    left, but its left child is created with the counts [1; 1; 1] of the
    search on feature 1: its [n_subset] is 3.  That child is split in turn
    and its two children have [n_subset] 2 each. *)
Theorem n_subset_of_parent_differs_from_children (find_splits : list Z -> list threshold) :
  exists root l r ll lr,
    grow_tree find_splits 5 (new_node "root" [2; 2; 2] 6)
      [[1; 1; 1; 1; 9; 9]; [1; 2; 1; 2; 1; 2]] [0; 0; 1; 1; 2; 2]
      ["n"; "n"] (gini [2; 2; 2] 6) [0; 1; 2] 2 None 0 one
    = Returned root
    /\ children root = [l; r]
    /\ children l = [ll; lr]
    /\ n_subset l = 3
    /\ n_subset ll + n_subset lr = 4.
Proof.
  do 5 eexists. split; [vm_compute; reflexivity |]. repeat split.
Qed.

(** ** Growth: the commit decision *)

Section Commit.

Variable find_splits : list Z -> list threshold.

(** C5.  When the stopping tests are passed, the search has chosen a
    threshold whose impurity is below [max_gini], and one side of the
    partition the new rule makes of the data has fewer than [min_size]
    examples, [grow_tree] returns the node with [split_rule] and
    [split_feature] both [None] and everything else as it was: no child
    is attached and the class counts are untouched. *)
Theorem undersized_split_is_discarded
  (fuel : nat) (self : tree) (X : list (list Z)) (y : list Z)
  (data_types : list string) (bg : fl) (classes : list Z)
  (min_size : Z) (max_depth : option Z) (current_depth : Z) (max_gini : fl)
  (s : search) (thr : threshold) (p : nat) (ty : string)
  (right_y left_y : list Z) (right_x left_x : list (list Z)) :
  (size y <? min_size) || Float.eqb bg (of_Z 0) = false ->
  too_deep max_depth current_depth = false ->
  search_features find_splits X y data_types bg classes = Ok s ->
  chosen s = Some (Some thr, p, ty) ->
  ltb (best_gini s) max_gini = true ->
  realize (make_rule ty thr) X y p = Ok (right_y, right_x, left_y, left_x) ->
  size right_y < min_size \/ size left_y < min_size ->
  exists self',
    grow_tree find_splits (S fuel) self X y data_types bg classes
      min_size max_depth current_depth max_gini = Returned self'
    /\ split_feature self' = None
    /\ split_rule self' = None
    /\ children self' = children self
    /\ class_counts self' = class_counts self
    /\ n_subset self' = n_subset self
    /\ name self' = name self.
Proof.
  intros Hstop Hdepth Hsearch Hchosen Hceil Hreal Hsmall.
  exists (set_split self None None).
  split; [| destruct self; repeat split].
  simpl. rewrite Hstop, Hdepth, Hsearch, Hchosen, Hceil, Hreal.
  assert (Hmin : (size right_y <? min_size) || (size left_y <? min_size) = true).
  { apply orb_true_iff. destruct Hsmall as [H | H]; [left | right];
      now apply Z.ltb_lt. }
  rewrite Hmin. destruct self; reflexivity.
Qed.


End Commit.

Lemma undersized_split_is_discarded_witness :
  exists self',
    grow_tree singletons 1 (new_node "root" [2; 1] 3) [[1; 1; 6]] [0; 0; 1]
      ["n"] (gini [2; 1] 3) [0; 1] 2 None 0 one = Returned self'
    /\ split_feature self' = None
    /\ split_rule self' = None
    /\ children self' = children (new_node "root" [2; 1] 3)
    /\ class_counts self' = class_counts (new_node "root" [2; 1] 3)
    /\ n_subset self' = n_subset (new_node "root" [2; 1] 3)
    /\ name self' = name (new_node "root" [2; 1] 3).
Proof.
  eapply (undersized_split_is_discarded singletons 0 (new_node "root" [2; 1] 3)
            [[1; 1; 6]] [0; 0; 1] ["n"] (gini [2; 1] 3) [0; 1] 2 None 0 one).
  - reflexivity.
  - reflexivity.
  - vm_compute. reflexivity.
  - reflexivity.
  - reflexivity.
  - vm_compute. reflexivity.
  - left. vm_compute. reflexivity.
Defined.


(** ** Growth: termination *)

Lemma make_rule_cases (ty : string) (thr : threshold) :
  (ty = "n" \/ ty = "o") /\ make_rule ty thr = RuleGt thr
  \/ ty <> "n" /\ ty <> "o" /\ make_rule ty thr = RuleEq thr.
Proof.
  unfold make_rule.
  destruct (String.eqb_spec ty "n") as [-> | Hn]; [left; auto |].
  destruct (String.eqb_spec ty "o") as [-> | Ho]; [left; auto |].
  right. auto.
Qed.

Lemma realize_Ok (r : rule) (X : list (list Z)) (y : list Z) (p : nat)
  (right_y left_y : list Z) (right_x left_x : list (list Z)) :
  realize r X y p = Ok (right_y, right_x, left_y, left_x) ->
  exists b,
    rule_mask r (map Some (nth p X [])) = Ok b
    /\ length b = length y
    /\ right_y = select y b
    /\ left_y = select y (map negb b).
Proof.
  unfold realize.
  assert (Happly : apply_rule r (map Some (nth p X []))
                   = (b <- rule_mask r (map Some (nth p X [])) ;; Ok (astype_int b))).
  { destruct r; reflexivity. }
  rewrite Happly.
  destruct (rule_mask r (map Some (nth p X []))) as [b | e]; [| discriminate].
  cbn [bind]. rewrite astype_int_is1, astype_int_is0.
  destruct (mask_index y b) as [ry | e] eqn:Hry; [| discriminate].
  cbn [bind].
  destruct (mapM (fun col => mask_index col b) X); [| discriminate].
  cbn [bind].
  destruct (mask_index y (map negb b)) as [ly | e] eqn:Hly; [| discriminate].
  cbn [bind].
  destruct (mapM (fun col => mask_index col (map negb b)) X); [| discriminate].
  cbn [bind]. intros [= <- _ <- _].
  apply mask_index_Ok in Hry, Hly. exists b. intuition.
Qed.

Section Termination.

Variable find_splits : list Z -> list threshold.

(** What is asked of the candidate generator: a candidate that is a
    collection is a subset of the values it was given, each value listed
    once. *)
Hypothesis find_splits_subsets :
  forall values s, In (Subset s) (find_splits values) -> NoDup s /\ incl s values.

Lemma best_split_two_sided (fv labels : list Z) (dt : string) (classes : list Z)
  (r : split) (thr : threshold) :
  _best_split_classification find_splits fv labels dt classes = Ok r ->
  best_thr r = Some thr ->
  two_sided fv labels dt classes (possible_thresholds find_splits dt fv) thr.
Proof.
  unfold _best_split_classification. intros Hr.
  eapply split_loop_two_sided; [apply incl_refl | | exact Hr].
  cbn [best_thr]. discriminate.
Qed.

Lemma feature_loop_sound (X : list (list Z)) (y : list Z) (classes : list Z)
  (its : list (nat * string)) (st st' : search) :
  sound_choice find_splits X y classes st ->
  feature_loop find_splits X y classes its st = Ok st' ->
  sound_choice find_splits X y classes st'.
Proof.
  revert st. induction its as [| [idx dt] its IH]; intros st Hst; simpl.
  - intros [= <-]. assumption.
  - destruct (_best_split_classification find_splits (nth idx X []) y dt classes)
      as [r | e] eqn:Hr; [| discriminate].
    cbn [bind].
    destruct (ltb (impurity r) (best_gini st)); cbn [bind]; apply IH.
    + intros thr p ty. cbn [chosen]. intros [= Hthr <- <-].
      eapply best_split_two_sided; eassumption.
    + exact Hst.
Qed.

Lemma search_features_sound (X : list (list Z)) (y : list Z)
  (data_types : list string) (bg : fl) (classes : list Z) (s : search) :
  search_features find_splits X y data_types bg classes = Ok s ->
  sound_choice find_splits X y classes s.
Proof.
  unfold search_features. apply feature_loop_sound.
  intros thr p ty. cbn [chosen]. discriminate.
Qed.

(** The mask of the committed rule has a true and a false entry whenever
    the search found the threshold two-sided. *)
Lemma committed_mask_two_sided (col y : list Z) (ty : string) (classes : list Z)
  (thr : threshold) (b : list bool) :
  two_sided col y ty classes (possible_thresholds find_splits ty col) thr ->
  rule_mask (make_rule ty thr) (map Some col) = Ok b ->
  In true b /\ In false b.
Proof.
  intros [Hin (q & l & r & Hev)] Hb.
  apply evaluate_two_sided in Hev.
  destruct Hev as (sel & Hsel & Hlen & Ht & Hf).
  unfold selection, possible_thresholds in *.
  destruct (make_rule_cases ty thr) as [[Hty Hr] | (Hn & Ho & Hr)];
    rewrite Hr in Hb; cbn [rule_mask] in Hb.
  - (* numeric or ordinal: the very comparison of the search *)
    assert (Hc : String.eqb ty "c" = false) by (destruct Hty; subst; reflexivity).
    rewrite Hc in Hsel. rewrite Hsel in Hb. injection Hb as <-. auto.
  - destruct (String.eqb_spec ty "c") as [-> | Hc].
    + (* categorical: membership in the search, equality in the rule *)
      injection Hsel as <-.
      destruct thr as [t | s].
      * cbn [broadcast elements] in *. rewrite mapM_py_eq in Hb.
        injection Hb as <-. rewrite isin_single in Ht, Hf. auto.
      * cbn [broadcast elements] in *.
        destruct (find_splits_subsets _ _ Hin) as [Hnd Hincl].
        assert (Hshort : (length s < length col)%nat).
        { unfold isin in Hf. apply in_map_iff in Hf.
          destruct Hf as (v & Hv & Hvcol).
          apply subset_shorter with (v := v); auto.
          intros Hvs. apply mem_In in Hvs. congruence. }
        rewrite length_map in Hb.
        destruct (Nat.eqb_spec (length s) (length col)) as [E | _]; [lia |].
        destruct s as [| t [| t' s']].
        -- destruct col as [| v [| v' col']]; simpl in *; try discriminate; lia.
        -- rewrite mapM_py_eq in Hb. injection Hb as <-.
           rewrite isin_single in Ht, Hf. auto.
        -- destruct col as [| v [| v' col']]; simpl in *; try discriminate; lia.
    + (* any other tag: [>] in the search, [==] in the rule *)
      apply in_map_iff in Hin. destruct Hin as (t & <- & Hin).
      cbn [broadcast] in *. rewrite mapM_py_gt in Hsel. rewrite mapM_py_eq in Hb.
      injection Hsel as <-. injection Hb as <-. split.
      * apply in_map_iff. exists t. split; [apply Z.eqb_refl |].
        now apply np_unique_In.
      * apply in_map_iff in Ht. destruct Ht as (v & Hv & Hvcol).
        apply in_map_iff. exists v. split; [| assumption].
        apply Z.eqb_neq. apply Z.gtb_lt in Hv. lia.
Qed.

(** Both sides of a committed split are strictly smaller than the data at
    the node. *)
Lemma committed_split_shrinks (X : list (list Z)) (y : list Z)
  (data_types : list string) (bg : fl) (classes : list Z) (s : search)
  (thr : threshold) (p : nat) (ty : string)
  (right_y left_y : list Z) (right_x left_x : list (list Z)) :
  search_features find_splits X y data_types bg classes = Ok s ->
  chosen s = Some (Some thr, p, ty) ->
  realize (make_rule ty thr) X y p = Ok (right_y, right_x, left_y, left_x) ->
  (length right_y < length y)%nat /\ (length left_y < length y)%nat.
Proof.
  intros Hs Hc Hreal.
  apply search_features_sound in Hs. specialize (Hs thr p ty Hc).
  apply realize_Ok in Hreal. destruct Hreal as (b & Hb & Hlen & -> & ->).
  destruct (committed_mask_two_sided _ _ _ _ _ _ Hs Hb) as [Ht Hf].
  split.
  - now apply select_shrinks.
  - apply select_shrinks; [now rewrite length_map |].
    apply in_map_iff. exists true. auto.
Qed.

Lemma grow_tree_enough_fuel (fuel : nat) :
  forall (self : tree) (X : list (list Z)) (y : list Z)
    (data_types : list string) (bg : fl) (classes : list Z)
    (min_size : Z) (max_depth : option Z) (current_depth : Z) (max_gini : fl),
    (length y < fuel)%nat ->
    grow_tree find_splits fuel self X y data_types bg classes
      min_size max_depth current_depth max_gini <> OutOfFuel.
Proof.
  induction fuel as [| fuel IH]; intros self X y data_types bg classes
    min_size max_depth current_depth max_gini Hfuel; [lia |].
  simpl.
  destruct ((size y <? min_size) || Float.eqb bg (of_Z 0)); [discriminate |].
  destruct (too_deep max_depth current_depth); [discriminate |].
  destruct (search_features find_splits X y data_types bg classes) as [s | e] eqn:Hs;
    [| discriminate].
  destruct (chosen s) as [[[[thr |] p] ty] |] eqn:Hc; try discriminate.
  destruct (ltb (best_gini s) max_gini); [| discriminate].
  destruct (realize (make_rule ty thr) X y p)
    as [[[[right_y right_x] left_y] left_x] | e] eqn:Hr; [| discriminate].
  destruct ((size right_y <? min_size) || (size left_y <? min_size));
    [discriminate |].
  destruct (left_distribution s) as [ld |]; [| discriminate].
  destruct (right_distribution s) as [rd |]; [| discriminate].
  destruct (committed_split_shrinks _ _ _ _ _ _ _ _ _ _ _ _ _ Hs Hc Hr)
    as [Hright Hleft].
  match goal with
  | |- context [grow_tree find_splits fuel ?t left_x left_y ?d ?g ?c ?ms ?md ?cd ?mg] =>
      pose proof (IH t left_x left_y d g c ms md cd mg ltac:(lia)) as HL;
      destruct (grow_tree find_splits fuel t left_x left_y d g c ms md cd mg)
        as [left_tree | e left_tree |]
  end; [| discriminate | now elim HL].
  match goal with
  | |- context [grow_tree find_splits fuel ?t right_x right_y ?d ?g ?c ?ms ?md ?cd ?mg] =>
      pose proof (IH t right_x right_y d g c ms md cd mg ltac:(lia)) as HR;
      destruct (grow_tree find_splits fuel t right_x right_y d g c ms md cd mg)
        as [right_tree | e right_tree |]
  end; [| discriminate | now elim HR].
  discriminate.
Qed.

Lemma grow_tree_fuel_mono (fuel : nat) :
  forall (fuel' : nat) (self : tree) (X : list (list Z)) (y : list Z)
    (data_types : list string) (bg : fl) (classes : list Z)
    (min_size : Z) (max_depth : option Z) (current_depth : Z) (max_gini : fl),
    (fuel <= fuel')%nat ->
    grow_tree find_splits fuel self X y data_types bg classes
      min_size max_depth current_depth max_gini <> OutOfFuel ->
    grow_tree find_splits fuel' self X y data_types bg classes
      min_size max_depth current_depth max_gini
    = grow_tree find_splits fuel self X y data_types bg classes
        min_size max_depth current_depth max_gini.
Proof.
  induction fuel as [| fuel IH]; intros fuel' self X y data_types bg classes
    min_size max_depth current_depth max_gini Hle Hout; [now elim Hout |].
  destruct fuel' as [| fuel']; [lia |].
  simpl in *.
  destruct ((size y <? min_size) || Float.eqb bg (of_Z 0)); [reflexivity |].
  destruct (too_deep max_depth current_depth); [reflexivity |].
  destruct (search_features find_splits X y data_types bg classes) as [s | e];
    [| reflexivity].
  destruct (chosen s) as [[[[thr |] p] ty] |]; try reflexivity.
  destruct (ltb (best_gini s) max_gini); [| reflexivity].
  destruct (realize (make_rule ty thr) X y p)
    as [[[[right_y right_x] left_y] left_x] | e]; [| reflexivity].
  destruct ((size right_y <? min_size) || (size left_y <? min_size));
    [reflexivity |].
  destruct (left_distribution s) as [ld |]; [| reflexivity].
  destruct (right_distribution s) as [rd |]; [| reflexivity].
  match goal with
  | |- context [grow_tree find_splits fuel ?t left_x left_y ?d ?g ?c ?ms ?md ?cd ?mg] =>
      rewrite (IH fuel' t left_x left_y d g c ms md cd mg ltac:(lia));
      [| intros E; rewrite E in Hout; now elim Hout];
      destruct (grow_tree find_splits fuel t left_x left_y d g c ms md cd mg)
  end; try reflexivity.
  match goal with
  | |- context [grow_tree find_splits fuel ?t right_x right_y ?d ?g ?c ?ms ?md ?cd ?mg] =>
      rewrite (IH fuel' t right_x right_y d g c ms md cd mg ltac:(lia));
      [| intros E; rewrite E in Hout; now elim Hout]
  end.
  reflexivity.
Qed.

(** C9.  Under a candidate generator that proposes subsets of the values it
    is given, and for every node, dataset, [min_size], [max_depth] (set or
    not), depth and [max_gini]: whenever a split is committed, each of the
    two label vectors handed to the recursive calls is strictly shorter than
    [y]; and the call ends, by returning or by raising, with the same
    outcome for every amount of fuel above [length y]. *)
Theorem grow_tree_terminates
  (self : tree) (X : list (list Z)) (y : list Z)
  (data_types : list string) (bg : fl) (classes : list Z)
  (min_size : Z) (max_depth : option Z) (current_depth : Z) (max_gini : fl) :
  (forall s thr p ty right_y right_x left_y left_x,
      search_features find_splits X y data_types bg classes = Ok s ->
      chosen s = Some (Some thr, p, ty) ->
      realize (make_rule ty thr) X y p = Ok (right_y, right_x, left_y, left_x) ->
      (length right_y < length y)%nat /\ (length left_y < length y)%nat)
  /\ exists out,
      out <> OutOfFuel
      /\ forall fuel, (length y < fuel)%nat ->
           grow_tree find_splits fuel self X y data_types bg classes
             min_size max_depth current_depth max_gini = out.
Proof.
  split.
  - intros s thr p ty right_y right_x left_y left_x.
    apply committed_split_shrinks.
  - exists (grow_tree find_splits (S (length y)) self X y data_types bg classes
              min_size max_depth current_depth max_gini).
    split.
    + apply grow_tree_enough_fuel. lia.
    + intros fuel Hfuel. apply grow_tree_fuel_mono; [lia |].
      apply grow_tree_enough_fuel. lia.
Qed.

End Termination.

Lemma singletons_subsets (values s : list Z) :
  In (Subset s) (singletons values) -> NoDup s /\ incl s values.
Proof.
  unfold singletons. intros H. apply in_map_iff in H.
  destruct H as (v & [= <-] & Hv). split.
  - constructor; [intros [] | constructor].
  - intros x [<- | []]. assumption.
Qed.

Lemma grow_tree_terminates_witness :
  exists out,
    out <> OutOfFuel
    /\ forall fuel, (length [0; 0; 1; 1; 2; 2] < fuel)%nat ->
         grow_tree singletons fuel (new_node "root" [2; 2; 2] 6)
           [[1; 1; 1; 1; 9; 9]; [1; 2; 1; 2; 1; 2]] [0; 0; 1; 1; 2; 2]
           ["n"; "c"] (gini [2; 2; 2] 6) [0; 1; 2] 0 None 0 one = out.
Proof.
  exact (proj2 (grow_tree_terminates singletons singletons_subsets
                  (new_node "root" [2; 2; 2] 6)
                  [[1; 1; 1; 1; 9; 9]; [1; 2; 1; 2; 1; 2]] [0; 0; 1; 1; 2; 2]
                  ["n"; "c"] (gini [2; 2; 2] 6) [0; 1; 2] 0 None 0 one)).
Defined.

(** * Further properties *)

(** ** The constructor and the [children] property *)

(** X1.  The constructor either returns a node without children (no
    [children] argument) or with exactly the two nodes it was given; any
    other [children] argument raises AssertionError. *)
Theorem constructor_zero_or_two_children (cc : list Z) (ns : Z) (nm : string)
  (new : option (list pyobj)) (r : option rule) (f : option nat) :
  match new with
  | None =>
      init_classification cc ns nm new r f = Ok (Node nm r f [] cc ns)
  | Some [ObjTree a; ObjTree b] =>
      init_classification cc ns nm new r f = Ok (Node nm r f [a; b] cc ns)
  | Some _ =>
      init_classification cc ns nm new r f = Raise AssertionError
  end.
Proof.
  destruct new as [new |]; [| reflexivity].
  destruct new as [| [a |] [| [b |] [| c rest]]]; reflexivity.
Qed.

(** X2.  An assignment to [children] either appends the two nodes it was
    given, or raises AssertionError; in the second case the node has not
    lost a child and has gained at most one (the first of a pair whose
    second element is not a node). *)
Theorem children_setter_outcomes (self : tree) (new : list pyobj) :
  (exists a b,
      new = [ObjTree a; ObjTree b]
      /\ children_setter self new
         = (set_children self (children self ++ [a; b]), None))
  \/ (exists gained,
        children_setter self new
        = (set_children self (children self ++ gained), Some AssertionError)
        /\ (gained = [] \/ exists a, new = [ObjTree a; ObjOther] /\ gained = [a])).
Proof.
  assert (Hid : set_children self (children self ++ []) = self).
  { rewrite app_nil_r. now destruct self. }
  assert (Hnone : forall n, (n <> 2)%nat -> length new = n ->
            exists gained,
              children_setter self new
              = (set_children self (children self ++ gained), Some AssertionError)
              /\ (gained = []
                  \/ exists a, new = [ObjTree a; ObjOther] /\ gained = [a])).
  { intros n Hn Hlen. exists []. rewrite Hid. split; [| now left].
    unfold children_setter. rewrite Hlen.
    destruct (Nat.eqb_spec n 2); [contradiction | reflexivity]. }
  destruct new as [| o1 l1]; [right; now apply (Hnone 0%nat) |].
  destruct l1 as [| o2 l2]; [right; now apply (Hnone 1%nat) |].
  destruct l2 as [| o3 l3];
    [| right; apply (Hnone (S (S (S (length l3))))); [lia | reflexivity]].
  clear Hnone. destruct o1 as [a |], o2 as [b |].
  - left. exists a, b. split; [reflexivity |].
    unfold children_setter. simpl. now rewrite <- app_assoc.
  - right. exists [a]. split; [reflexivity |]. right. now exists a.
  - right. exists []. rewrite Hid. split; [| now left]. now destruct self.
  - right. exists []. rewrite Hid. split; [| now left]. now destruct self.
Qed.

Lemma pairwise_app (R : tree -> tree -> Prop) (l1 l2 : list tree) :
  ForallOrdPairs R (l1 ++ l2)
  <-> ForallOrdPairs R l1 /\ ForallOrdPairs R l2
      /\ (forall a b, In a l1 -> In b l2 -> R a b).
Proof.
  induction l1 as [| x l1 IH]; simpl.
  - split; [intros H; repeat split; [constructor | assumption | contradiction]
           | now intros (_ & H & _)].
  - split.
    + intros H. inversion H as [| ? ? Hx Hrest]; subst.
      apply IH in Hrest. destruct Hrest as (H1 & H2 & H12).
      rewrite Forall_app in Hx. destruct Hx as [Hx1 Hx2].
      repeat split; [now constructor | assumption |].
      intros a b [<- | Ha] Hb; [| auto].
      rewrite Forall_forall in Hx2. auto.
    + intros (H1 & H2 & H12). inversion H1 as [| ? ? Hx Hrest]; subst.
      constructor.
      * apply Forall_app. split; [assumption |].
        apply Forall_forall. intros b Hb. apply H12; [now left | assumption].
      * apply IH. repeat split; auto.
Qed.

Lemma list_remove_at (same : tree -> tree -> bool) (x : tree)
  (kept rest : list tree) :
  same x x = true ->
  Forall (fun k => same x k = false) kept ->
  list_remove same x (kept ++ x :: rest) = Ok (kept ++ rest).
Proof.
  intros Hrefl. induction kept as [| k kept IH]; intros Hk; simpl.
  - now rewrite Hrefl.
  - inversion Hk as [| ? ? Hk1 Hk2]; subst. rewrite Hk1, (IH Hk2). reflexivity.
Qed.

Lemma deleter_loop_odds (same : tree -> tree -> bool) :
  (forall t, same t t = true) ->
  forall (fuel : nat) (kept rest : list tree),
    pairwise_different same (kept ++ rest) ->
    (length rest <= fuel)%nat ->
    deleter_loop same fuel (length kept) (kept ++ rest)
    = Some (Ok (kept ++ odds rest)).
Proof.
  intros Hrefl. induction fuel as [| fuel IH]; intros kept rest Hdiff Hlen.
  - destruct rest; [| simpl in Hlen; lia].
    cbn [odds]. rewrite !app_nil_r. cbn [deleter_loop].
    now rewrite (proj2 (nth_error_None kept (length kept)) (Nat.le_refl _)).
  - destruct rest as [| x rest].
    { cbn [odds]. rewrite !app_nil_r. cbn [deleter_loop].
      now rewrite (proj2 (nth_error_None kept (length kept)) (Nat.le_refl _)). }
    cbn [deleter_loop].
    rewrite nth_error_app2, Nat.sub_diag by lia. cbn [nth_error].
    unfold pairwise_different in Hdiff. apply pairwise_app in Hdiff.
    destruct Hdiff as (Hk & Hr & Hkr).
    inversion Hr as [| ? ? Hx Hrest]; subst.
    rewrite list_remove_at; [| apply Hrefl |].
    2:{ apply Forall_forall. intros k Hin. apply Hkr; [assumption | now left]. }
    destruct rest as [| y rest].
    + cbn [odds]. rewrite !app_nil_r. destruct fuel; cbn [deleter_loop];
        now rewrite (proj2 (nth_error_None kept (S (length kept)))
                       (Nat.le_succ_diag_r _)).
    + replace (kept ++ y :: rest) with ((kept ++ [y]) ++ rest)
        by now rewrite <- app_assoc.
      replace (S (length kept)) with (length (kept ++ [y]))
        by (rewrite length_app; simpl; lia).
      rewrite IH.
      * simpl. now rewrite <- app_assoc.
      * unfold pairwise_different. apply pairwise_app.
        inversion Hrest as [| ? ? Hy Hrest']; subst.
        split; [| split; [assumption |]].
        -- apply pairwise_app. repeat split; [assumption | repeat constructor |].
           intros a b Ha [<- | []]. apply Hkr; [assumption | right; now left].
        -- intros a b Ha Hb. apply in_app_or in Ha. destruct Ha as [Ha | [<- | []]].
           ++ apply Hkr; [assumption | right; now right].
           ++ rewrite Forall_forall in Hy. auto.
      * simpl in Hlen. lia.
Qed.

(** X3.  On a node whose children are pairwise different objects,
    [del self.children] neither raises nor empties the list: it keeps the
    children at the odd positions, that is half of them, rounded down. *)
Theorem children_deleter_keeps_odd_positions
  (same : tree -> tree -> bool) (self : tree) :
  (forall t, same t t = true) ->
  pairwise_different same (children self) ->
  children_deleter same self
  = Some (Ok (set_children self (odds (children self)))).
Proof.
  intros Hrefl Hdiff. unfold children_deleter.
  pose proof (deleter_loop_odds same Hrefl (length (children self)) []
                (children self) Hdiff (Nat.le_refl _)) as H.
  cbn [app length] in H. now rewrite H.
Qed.

Lemma same_name_refl (t : tree) : same_name t t = true.
Proof. unfold same_name. apply String.eqb_refl. Qed.

Lemma children_deleter_keeps_odd_positions_witness :
  let n (s : string) := new_node s [1] 1 in
  let self := Node "root" None None [n "a"; n "b"; n "c"; n "d"; n "e"] [5] 5 in
  children_deleter same_name self
  = Some (Ok (set_children self [n "b"; n "d"])).
Proof.
  intros n self.
  apply (children_deleter_keeps_odd_positions same_name self same_name_refl).
  unfold pairwise_different. repeat constructor.
Defined.

(** ** The split search *)

Lemma ltb_irrefl (a : fl) : ltb a a = false.
Proof.
  destruct a as [x |]; simpl; [| reflexivity].
  destruct (Qltb x x) eqn:E; [| reflexivity].
  apply Qltb_lt in E. exfalso. exact (Qlt_irrefl _ E).
Qed.

(** A value that is not below the running best is not below an improved
    running best either. *)
Lemma ltb_not_below (g i i' : fl) :
  ltb g i = false -> ltb i' i = true -> ltb g i' = false.
Proof.
  destruct g as [q |], i as [x |], i' as [x' |]; simpl; try discriminate;
    try reflexivity.
  intros Hq Hx. destruct (Qltb q x') eqn:E; [| reflexivity].
  apply Qltb_lt in E, Hx.
  assert (Hlt : Qltb q x = true) by (apply Qltb_lt; eapply Qlt_trans; eauto).
  congruence.
Qed.

Lemma sorted_head_lt (c : Z) (l : list Z) :
  StronglySorted Z.lt (c :: l) -> forall x, In x l -> c < x.
Proof.
  intros H x Hx. inversion H as [| ? ? _ Hall]; subst.
  rewrite Forall_forall in Hall. auto.
Qed.

Lemma mem_above (c x : Z) (U : list Z) : c < x -> mem x (c :: U) = mem x U.
Proof.
  intros H. unfold mem. simpl.
  destruct (Z.eqb_spec x c); [lia | reflexivity].
Qed.

(** Laying counts out over ascending classes puts each count under its own
    class. *)
Lemma fill_ascending (g : Z -> Z) (classes : list Z) :
  StronglySorted Z.lt classes ->
  forall U, StronglySorted Z.lt U -> incl U classes ->
    count_true (isin classes U) = length U
    /\ fill (isin classes U) (map g U)
       = map (fun c => if mem c U then g c else 0) classes.
Proof.
  induction classes as [| c cs IH]; intros Hcs U HU Hincl.
  - destruct U as [| u U]; [split; reflexivity |].
    destruct (Hincl u (or_introl eq_refl)).
  - assert (Hcs' : StronglySorted Z.lt cs) by now inversion Hcs.
    pose proof (sorted_head_lt c cs Hcs) as Habove.
    destruct U as [| u U'].
    + destruct (IH Hcs' [] HU (incl_nil_l _)) as [Hn Hf].
      unfold count_true in *. simpl in *. split; [exact Hn |].
      now rewrite Hf.
    + assert (HU' : StronglySorted Z.lt U') by now inversion HU.
      pose proof (sorted_head_lt u U' HU) as HUabove.
      destruct (Z.eq_dec u c) as [-> | Hne].
      * assert (Hincl' : incl U' cs).
        { intros x Hx. specialize (HUabove x Hx).
          destruct (Hincl x (or_intror Hx)) as [E | Hin]; [lia | assumption]. }
        destruct (IH Hcs' U' HU' Hincl') as [Hn Hf].
        assert (Hext : isin cs (c :: U') = isin cs U').
        { unfold isin. apply map_ext_in. intros x Hx.
          apply mem_above. auto. }
        unfold count_true in *.
        change (isin (c :: cs) (c :: U'))
          with (mem c (c :: U') :: isin cs (c :: U')).
        assert (Hc : mem c (c :: U') = true) by (apply mem_In; now left).
        rewrite Hc, Hext. cbn [filter id length map fill].
        rewrite Hn, Hf. split; [reflexivity |]. rewrite Hc. f_equal.
        apply map_ext_in. intros x Hx. now rewrite mem_above by auto.
      * assert (Hu : c < u).
        { destruct (Hincl u (or_introl eq_refl)) as [E | Hin]; [congruence | auto]. }
        assert (Hincl' : incl (u :: U') cs).
        { intros x Hx.
          assert (c < x) by (destruct Hx as [<- | Hx]; [lia |];
                             specialize (HUabove x Hx); lia).
          destruct (Hincl x Hx) as [E | Hin]; [lia | assumption]. }
        destruct (IH Hcs' (u :: U') HU Hincl') as [Hn Hf].
        assert (Hc : mem c (u :: U') = false).
        { destruct (mem c (u :: U')) eqn:E; [| reflexivity].
          apply mem_In in E. destruct E as [E | E]; [lia |].
          specialize (HUabove c E). lia. }
        unfold count_true in *.
        change (isin (c :: cs) (u :: U'))
          with (mem c (u :: U') :: isin cs (u :: U')).
        rewrite Hc. cbn [filter id length map fill] in *.
        rewrite Hn. split; [reflexivity |]. rewrite Hc. f_equal. exact Hf.
Qed.

Lemma count_cons (c v : Z) (a : list Z) :
  count c (v :: a) = (if v =? c then 1 else 0) + count c a.
Proof.
  unfold count. simpl. destruct (Z.eq_dec v c) as [-> | Hne].
  - rewrite Z.eqb_refl. lia.
  - destruct (Z.eqb_spec v c); [contradiction | lia].
Qed.

Lemma sum_indicator (v : Z) (classes : list Z) :
  NoDup classes -> In v classes ->
  np_sum (map (fun c => if v =? c then 1 else 0) classes) = 1.
Proof.
  induction classes as [| c cs IH]; intros Hnd Hin; [contradiction |].
  inversion Hnd as [| ? ? Hc Hnd']; subst. simpl.
  assert (Hzero : forall l, ~ In v l ->
            np_sum (map (fun c => if v =? c then 1 else 0) l) = 0).
  { induction l as [| x l IHl]; intros Hx; [reflexivity |]. simpl.
    destruct (Z.eqb_spec v x); [subst; elim Hx; now left |].
    apply IHl. intros H. apply Hx. now right. }
  destruct (Z.eqb_spec v c) as [-> | Hne].
  - rewrite Hzero by assumption. lia.
  - destruct Hin as [E | Hin]; [congruence |]. rewrite IH by assumption. lia.
Qed.

Lemma sum_counts (classes labels : list Z) :
  NoDup classes -> (forall v, In v labels -> In v classes) ->
  np_sum (map (fun c => count c labels) classes) = size labels.
Proof.
  intros Hnd. induction labels as [| v t IH]; intros Hin.
  - clear Hnd Hin. induction classes as [| c cs IHc]; [reflexivity |].
    simpl map. cbn [np_sum fold_right]. fold (np_sum (map (fun c => count c []) cs)).
    rewrite IHc. reflexivity.
  - assert (Hsplit : forall l,
              np_sum (map (fun c => count c (v :: t)) l)
              = np_sum (map (fun c => if v =? c then 1 else 0) l)
                + np_sum (map (fun c => count c t) l)).
    { induction l as [| x l IHl]; [reflexivity |]. simpl.
      rewrite count_cons, IHl. lia. }
    rewrite Hsplit.
    rewrite sum_indicator; [| assumption | apply Hin; now left].
    rewrite IH; [| intros x Hx; apply Hin; now right].
    unfold size. simpl length. lia.
Qed.

Lemma sorted_NoDup (l : list Z) : StronglySorted Z.lt l -> NoDup l.
Proof.
  induction l as [| x l IH]; intros H; [constructor |].
  inversion H as [| ? ? Hl Hall]; subst. constructor; [| auto].
  intros Hin. rewrite Forall_forall in Hall. specialize (Hall x Hin). lia.
Qed.

(** X4.  With [classes] in ascending order and holding every label, the
    vector the search lays out for a side has, under each class, the number
    of labels of that class, and its entries add up to the number of
    labels. *)
Theorem class_distribution_counts (classes labels : list Z) :
  StronglySorted Z.lt classes ->
  (forall v, In v labels -> In v classes) ->
  class_distribution classes labels
  = Ok (map (fun c => count c labels) classes)
  /\ np_sum (map (fun c => count c labels) classes) = size labels.
Proof.
  intros Hsorted Hin. split; [| apply sum_counts; [now apply sorted_NoDup | auto]].
  unfold class_distribution, np_unique_counts.
  destruct (fill_ascending (fun v => count v labels) classes Hsorted
              (np_unique labels) (np_unique_ascending labels)) as [Hn Hf].
  { intros x Hx. apply Hin. now apply np_unique_In. }
  unfold assign_masked. rewrite length_map, Hn, Nat.eqb_refl, Hf.
  f_equal. apply map_ext. intros c.
  destruct (mem c (np_unique labels)) eqn:E; [reflexivity |].
  unfold count.
  destruct (count_occ Z.eq_dec labels c) eqn:Ec; [reflexivity |].
  assert (Hc : In c labels) by (apply (count_occ_In Z.eq_dec); lia).
  apply np_unique_In, mem_In in Hc. congruence.
Qed.

Lemma class_distribution_counts_witness :
  class_distribution [0; 1; 2] [2; 0; 2] = Ok (map (fun c => count c [2; 0; 2]) [0; 1; 2])
  /\ np_sum (map (fun c => count c [2; 0; 2]) [0; 1; 2]) = size [2; 0; 2].
Proof.
  apply (class_distribution_counts [0; 1; 2] [2; 0; 2]).
  - repeat constructor.
  - intros v [<- | [<- | [<- | []]]]; simpl; auto.
Defined.

Lemma split_loop_inv (fv labels : list Z) (dt : string) (classes : list Z)
  (cands : list threshold) :
  forall (seen : list threshold) (st st' : split),
    search_inv fv labels dt classes seen st ->
    split_loop fv labels dt classes cands st = Ok st' ->
    search_inv fv labels dt classes (seen ++ cands) st'.
Proof.
  induction cands as [| c cands IH]; intros seen st st' Hinv; simpl.
  - intros [= <-]. now rewrite app_nil_r.
  - destruct (split_step fv labels dt classes st c) as [st1 | e] eqn:Hstep;
      [| discriminate].
    cbn [bind]. intros Hloop.
    replace (seen ++ c :: cands) with ((seen ++ [c]) ++ cands)
      by now rewrite <- app_assoc.
    apply IH with (st := st1); [| assumption]. clear IH Hloop.
    unfold split_step in Hstep.
    destruct (evaluate fv labels dt classes c) as [[[g l] r] | e] eqn:He;
      [| discriminate].
    cbn [bind] in Hstep. destruct Hinv as [Hmin Hbest].
    destruct (ltb g (impurity st)) eqn:Hlt; injection Hstep as <-.
    + split.
      * cbn [impurity]. intros c' g' l' r' Hin He'.
        apply in_app_or in Hin. destruct Hin as [Hin | [<- | []]].
        -- eapply ltb_not_below; eauto.
        -- rewrite He in He'. injection He' as <- _ _. apply ltb_irrefl.
      * cbn [best_thr impurity best_left_dist best_right_dist].
        split; [apply in_or_app; right; now left |]. split; [| eauto].
        destruct (best_thr st) as [c0 |].
        -- destruct Hbest as (_ & Hone & _). eapply ltb_trans; eauto.
        -- rewrite Hbest in Hlt. exact Hlt.
    + split.
      * intros c' g' l' r' Hin He'.
        apply in_app_or in Hin. destruct Hin as [Hin | [<- | []]]; [eauto |].
        rewrite He in He'. now injection He' as <- _ _.
      * destruct (best_thr st) as [c0 |]; [| assumption].
        destruct Hbest as (Hin & Hrest). split; [| assumption].
        apply in_or_app. now left.
Qed.

Lemma best_split_inv (find_splits : list Z -> list threshold)
  (fv labels : list Z) (dt : string) (classes : list Z) (st : split) :
  _best_split_classification find_splits fv labels dt classes = Ok st ->
  search_inv fv labels dt classes (possible_thresholds find_splits dt fv) st.
Proof.
  unfold _best_split_classification. intros H.
  apply (split_loop_inv fv labels dt classes _ [] _ _) in H; [exact H |].
  split; [intros c g l r [] | reflexivity].
Qed.

(** X5.  What the search returns is a minimum: no candidate has a weighted
    impurity strictly below the returned one.  If a threshold is returned,
    it is one of the candidates, the returned impurity and distributions are
    its own, and the impurity is below 1; if none is returned, the result is
    [(None, 1, None, None)]. *)
Theorem best_split_is_minimal (find_splits : list Z -> list threshold)
  (fv labels : list Z) (dt : string) (classes : list Z) (st : split) :
  _best_split_classification find_splits fv labels dt classes = Ok st ->
  (forall c g l r,
      In c (possible_thresholds find_splits dt fv) ->
      evaluate fv labels dt classes c = Ok (g, l, r) ->
      ltb g (impurity st) = false)
  /\ (forall c, best_thr st = Some c ->
        In c (possible_thresholds find_splits dt fv)
        /\ ltb (impurity st) one = true
        /\ exists l r,
             evaluate fv labels dt classes c = Ok (impurity st, l, r)
             /\ best_left_dist st = Some l /\ best_right_dist st = Some r)
  /\ (best_thr st = None -> st = Split None one None None).
Proof.
  intros H. apply best_split_inv in H. destruct H as [Hmin Hbest].
  split; [exact Hmin |]. split.
  - intros c Hc. rewrite Hc in Hbest. exact Hbest.
  - intros Hc. rewrite Hc in Hbest. exact Hbest.
Qed.

Lemma best_split_is_minimal_witness :
  let st := Split (Some (Scalar 1)) (Some (16 # 48)) (Some [1; 0]) (Some [1; 1]) in
  (forall c g l r,
      In c (possible_thresholds singletons "n" [1; 2; 3]) ->
      evaluate [1; 2; 3] [0; 1; 0] "n" [0; 1] c = Ok (g, l, r) ->
      ltb g (impurity st) = false)
  /\ (forall c, best_thr st = Some c ->
        In c (possible_thresholds singletons "n" [1; 2; 3])
        /\ ltb (impurity st) one = true
        /\ exists l r,
             evaluate [1; 2; 3] [0; 1; 0] "n" [0; 1] c = Ok (impurity st, l, r)
             /\ best_left_dist st = Some l /\ best_right_dist st = Some r)
  /\ (best_thr st = None -> st = Split None one None None).
Proof.
  intros st.
  apply (best_split_is_minimal singletons [1; 2; 3] [0; 1; 0] "n" [0; 1] st).
  vm_compute. reflexivity.
Defined.

Lemma selection_pointwise (find_splits : list Z -> list threshold)
  (fv : list Z) (dt : string) (thr : threshold) (sel : list bool) :
  In thr (possible_thresholds find_splits dt fv) ->
  selection dt fv thr = Ok sel ->
  exists f, sel = map f fv
            /\ (dt <> "c" ->
                exists t, thr = Scalar t /\ In t fv /\ f = fun v => v >? t).
Proof.
  unfold possible_thresholds, selection.
  destruct (String.eqb_spec dt "c") as [-> | Hne].
  - intros _ [= <-]. exists (fun v => mem v (elements thr)).
    split; [reflexivity | intros H; now elim H].
  - intros Hin. apply in_map_iff in Hin. destruct Hin as (t & <- & Hin).
    cbn [broadcast]. rewrite mapM_py_gt. intros [= <-].
    exists (fun v => v >? t). split; [reflexivity |]. intros _.
    exists t. split; [reflexivity |]. split; [now apply np_unique_In | reflexivity].
Qed.

(** X6.  A threshold the search returns sends at least one example to each
    side.  For a numeric or ordinal column it is one of the observed values
    and some observed value lies strictly above it. *)
Theorem best_split_has_two_sides (find_splits : list Z -> list threshold)
  (fv labels : list Z) (dt : string) (classes : list Z) (st : split)
  (thr : threshold) :
  _best_split_classification find_splits fv labels dt classes = Ok st ->
  best_thr st = Some thr ->
  (exists sel,
      selection dt fv thr = Ok sel /\ length sel = length labels
      /\ In true sel /\ In false sel)
  /\ (dt <> "c" ->
      exists t, thr = Scalar t /\ In t fv /\ exists v, In v fv /\ t < v).
Proof.
  intros Hs Hthr.
  destruct (best_split_two_sided find_splits fv labels dt classes st thr Hs Hthr)
    as [Hin (q & l & r & He)].
  apply evaluate_two_sided in He. destruct He as (sel & Hsel & Hlen & Ht & Hf).
  split; [exists sel; auto |].
  intros Hdt.
  destruct (selection_pointwise find_splits fv dt thr sel Hin Hsel)
    as (f & -> & Hnum).
  destruct (Hnum Hdt) as (t & -> & Hint & ->).
  exists t. split; [reflexivity |]. split; [assumption |].
  apply in_map_iff in Ht. destruct Ht as (v & Hv & Hvin).
  exists v. split; [assumption |]. apply Z.gtb_lt in Hv. lia.
Qed.

Lemma best_split_has_two_sides_witness :
  (exists sel,
      selection "n" [1; 1; 6; 6] (Scalar 1) = Ok sel
      /\ length sel = length [0; 0; 1; 1]
      /\ In true sel /\ In false sel)
  /\ ("n" <> "c" ->
      exists t, Scalar 1 = Scalar t /\ In t [1; 1; 6; 6]
                /\ exists v, In v [1; 1; 6; 6] /\ t < v).
Proof.
  apply (best_split_has_two_sides singletons [1; 1; 6; 6] [0; 0; 1; 1] "n" [0; 1]
           (Split (Some (Scalar 1)) (Some (0 # 1024)) (Some [2; 0]) (Some [0; 2]))).
  - vm_compute. reflexivity.
  - reflexivity.
Defined.

Lemma constant_mask (f : Z -> bool) (col : list Z) :
  constant col -> In true (map f col) -> In false (map f col) -> False.
Proof.
  intros Hc Ht Hf. apply in_map_iff in Ht, Hf.
  destruct Ht as (a & Ha & Hina), Hf as (b & Hb & Hinb).
  rewrite (Hc a b Hina Hinb) in Ha. congruence.
Qed.

Lemma constant_not_two_sided (find_splits : list Z -> list threshold)
  (col y : list Z) (ty : string) (classes : list Z) (thr : threshold) :
  constant col ->
  two_sided col y ty classes (possible_thresholds find_splits ty col) thr ->
  False.
Proof.
  intros Hc [Hin (q & l & r & He)].
  apply evaluate_two_sided in He. destruct He as (sel & Hsel & _ & Ht & Hf).
  destruct (selection_pointwise find_splits col ty thr sel Hin Hsel)
    as (f & -> & _).
  eapply constant_mask; eauto.
Qed.

(** X7.  On a column whose values are all the same the search finds
    nothing, whatever the data type and the candidate generator: it returns
    [(None, 1, None, None)]. *)
Theorem constant_column_has_no_split (find_splits : list Z -> list threshold)
  (fv labels : list Z) (dt : string) (classes : list Z) (st : split) :
  constant fv ->
  _best_split_classification find_splits fv labels dt classes = Ok st ->
  st = Split None one None None.
Proof.
  intros Hc Hs. pose proof (best_split_inv _ _ _ _ _ _ Hs) as [_ Hbest].
  destruct (best_thr st) as [thr |] eqn:Hthr; [| exact Hbest].
  exfalso. eapply constant_not_two_sided; [exact Hc |].
  eapply best_split_two_sided; eauto.
Qed.

Lemma constant_column_has_no_split_witness :
  _best_split_classification singles_and_pairs [4; 4; 4] [0; 1; 0] "c" [0; 1]
  = Ok (Split None one None None).
Proof.
  destruct (_best_split_classification singles_and_pairs [4; 4; 4] [0; 1; 0] "c" [0; 1])
    as [st | e] eqn:E; [| vm_compute in E; discriminate].
  f_equal.
  apply (constant_column_has_no_split singles_and_pairs [4; 4; 4] [0; 1; 0] "c"
           [0; 1] st).
  - intros a b Ha Hb. simpl in Ha, Hb. lia.
  - exact E.
Defined.

(** ** The loop over the features and the partition *)

Lemma combine_seq_In {A : Type} (l : list A) (p : nat) (x : A) :
  forall (a n : nat),
    In (p, x) (combine (seq a n) l)
    <-> (a <= p < a + n)%nat /\ nth_error l (p - a) = Some x.
Proof.
  induction l as [| h t IH]; intros a n.
  - rewrite combine_nil. split; [contradiction |].
    intros [_ H]. now destruct (p - a)%nat.
  - destruct n as [| n]; simpl.
    + split; [contradiction | intros [H _]; lia].
    + rewrite IH. split.
      * intros [[= <- <-] | [Hr Hn]].
        -- split; [lia |]. now rewrite Nat.sub_diag.
        -- split; [lia |]. replace (p - a)%nat with (S (p - S a)) by lia.
           exact Hn.
      * intros [Hr Hn]. destruct (Nat.eq_dec a p) as [<- | Hne].
        -- left. rewrite Nat.sub_diag in Hn. simpl in Hn. congruence.
        -- right. split; [lia |].
           replace (p - a)%nat with (S (p - S a)) in Hn by lia. exact Hn.
Qed.

Lemma feature_loop_inv (find_splits : list Z -> list threshold)
  (X : list (list Z)) (y : list Z) (classes : list Z) (bg : fl)
  (its : list (nat * string)) :
  forall (seen : list (nat * string)) (st s : search),
    features_inv find_splits X y classes bg seen st ->
    feature_loop find_splits X y classes its st = Ok s ->
    features_inv find_splits X y classes bg (seen ++ its) s.
Proof.
  induction its as [| [idx dt] its IH]; intros seen st s Hinv; simpl.
  - intros [= <-]. now rewrite app_nil_r.
  - destruct (_best_split_classification find_splits (nth idx X []) y dt classes)
      as [r | e] eqn:Hr; [| discriminate].
    cbn [bind]. intros Hloop.
    replace (seen ++ (idx, dt) :: its) with ((seen ++ [(idx, dt)]) ++ its)
      by now rewrite <- app_assoc.
    destruct Hinv as [Hmin Hbest].
    destruct (ltb (impurity r) (best_gini st)) eqn:Hlt; cbn [bind] in Hloop;
      (eapply IH; [| exact Hloop]); clear IH Hloop; split;
      cbn [best_gini chosen].
    + intros p ty r' Hin Hr'. apply in_app_or in Hin.
      destruct Hin as [Hin | [[= <- <-] | []]].
      * eapply ltb_not_below; eauto.
      * rewrite Hr in Hr'. injection Hr' as <-. apply ltb_irrefl.
    + split; [| split; [apply in_or_app; right; now left | eauto]].
      destruct (chosen st) as [[[thr0 p0] ty0] |].
      * destruct Hbest as (Hbg & _). eapply ltb_trans; eauto.
      * now rewrite <- Hbest.
    + intros p ty r' Hin Hr'. apply in_app_or in Hin.
      destruct Hin as [Hin | [[= <- <-] | []]]; [eauto |].
      rewrite Hr in Hr'. now injection Hr' as <-.
    + destruct (chosen st) as [[[thr0 p0] ty0] |]; [| assumption].
      destruct Hbest as (Hbg & Hin & Hrest).
      split; [assumption |]. split; [apply in_or_app; now left | assumption].
Qed.



Lemma mapM_mask_index (X : list (list Z)) (b : list bool) (rows : list (list Z)) :
  mapM (fun col => mask_index col b) X = Ok rows ->
  rows = map (fun col => select col b) X
  /\ Forall (fun col => length col = length b) X.
Proof.
  revert rows. induction X as [| col X IH]; intros rows; simpl.
  - intros [= <-]. split; [reflexivity | constructor].
  - destruct (mask_index col b) as [c |] eqn:Hc; [| discriminate]. cbn [bind].
    destruct (mapM (fun col => mask_index col b) X) as [cs |]; [| discriminate].
    cbn [bind]. intros [= <-]. apply mask_index_Ok in Hc.
    destruct Hc as [Hlen ->]. destruct (IH cs eq_refl) as [-> Hall].
    split; [reflexivity |]. constructor; [now symmetry | assumption].
Qed.

(** X9.  The partition made at commit time sends every example to exactly
    one side, its row along with its label: with [b] the boolean answers of
    the new rule on the split column, the right side is what [b] selects
    from [y] and from each column, the left side what its negation selects,
    the two label vectors together have the length of [y], and every column
    has as many rows as there are labels. *)
Theorem realize_is_a_partition (r : rule) (X : list (list Z)) (y : list Z)
  (p : nat) (right_y left_y : list Z) (right_x left_x : list (list Z)) :
  realize r X y p = Ok (right_y, right_x, left_y, left_x) ->
  exists b,
    rule_mask r (map Some (nth p X [])) = Ok b
    /\ length b = length y
    /\ right_y = select y b
    /\ left_y = select y (map negb b)
    /\ right_x = map (fun col => select col b) X
    /\ left_x = map (fun col => select col (map negb b)) X
    /\ (length right_y + length left_y = length y)%nat
    /\ Forall (fun col => length col = length y) X.
Proof.
  unfold realize.
  assert (Happly : apply_rule r (map Some (nth p X []))
                   = (b <- rule_mask r (map Some (nth p X [])) ;; Ok (astype_int b))).
  { destruct r; reflexivity. }
  rewrite Happly.
  destruct (rule_mask r (map Some (nth p X []))) as [b | e]; [| discriminate].
  cbn [bind]. rewrite astype_int_is1, astype_int_is0.
  destruct (mask_index y b) as [ry | e] eqn:Hry; [| discriminate].
  cbn [bind].
  destruct (mapM (fun col => mask_index col b) X) as [rx |] eqn:Hrx;
    [| discriminate].
  cbn [bind].
  destruct (mask_index y (map negb b)) as [ly | e] eqn:Hly; [| discriminate].
  cbn [bind].
  destruct (mapM (fun col => mask_index col (map negb b)) X) as [lx |] eqn:Hlx;
    [| discriminate].
  cbn [bind]. intros [= <- <- <- <-].
  apply mask_index_Ok in Hry, Hly. destruct Hry as [Hlen ->], Hly as [_ ->].
  apply mapM_mask_index in Hrx, Hlx. destruct Hrx as [-> Hall], Hlx as [-> _].
  exists b. repeat split; try reflexivity; try assumption.
  - now apply select_split_length.
  - eapply Forall_impl; [| exact Hall]. intros col Hc. simpl in Hc. lia.
Qed.

Lemma realize_is_a_partition_witness :
  exists b,
    rule_mask (RuleGt (Scalar 1)) (map Some (nth 0 [[1; 1; 6]; [7; 8; 9]] []))
    = Ok b
    /\ length b = length [0; 0; 1]
    /\ [1] = select [0; 0; 1] b
    /\ [0; 0] = select [0; 0; 1] (map negb b)
    /\ [[6]; [9]] = map (fun col => select col b) [[1; 1; 6]; [7; 8; 9]]
    /\ [[1; 1]; [7; 8]]
       = map (fun col => select col (map negb b)) [[1; 1; 6]; [7; 8; 9]]
    /\ (length [1] + length [0; 0] = length [0; 0; 1])%nat
    /\ Forall (fun col => length col = length [0; 0; 1]) [[1; 1; 6]; [7; 8; 9]].
Proof.
  apply (realize_is_a_partition (RuleGt (Scalar 1)) [[1; 1; 6]; [7; 8; 9]]
           [0; 0; 1] 0 [1] [0; 0] [[6]; [9]] [[1; 1]; [7; 8]]).
  vm_compute. reflexivity.
Defined.

(** ** Growth *)

(** The ways a call of [grow_tree] can return. *)
Lemma grow_tree_Returned_inv (find_splits : list Z -> list threshold)
  (fuel : nat) (self : tree) (X : list (list Z)) (y : list Z)
  (data_types : list string) (bg : fl) (classes : list Z)
  (min_size : Z) (max_depth : option Z) (current_depth : Z) (max_gini : fl)
  (t : tree) :
  grow_tree find_splits (S fuel) self X y data_types bg classes
    min_size max_depth current_depth max_gini = Returned t ->
  t = self
  \/ exists s thr p ty right_y right_x left_y left_x,
       (size y <? min_size) || Float.eqb bg (of_Z 0) = false
       /\ too_deep max_depth current_depth = false
       /\ search_features find_splits X y data_types bg classes = Ok s
       /\ chosen s = Some (Some thr, p, ty)
       /\ ltb (best_gini s) max_gini = true
       /\ realize (make_rule ty thr) X y p = Ok (right_y, right_x, left_y, left_x)
       /\ ((size right_y <? min_size) || (size left_y <? min_size) = true
           /\ t = set_split self None None
           \/ (size right_y <? min_size) || (size left_y <? min_size) = false
              /\ exists ld rd left_tree right_tree,
                   left_distribution s = Some ld
                   /\ right_distribution s = Some rd
                   /\ grow_tree find_splits fuel
                        (new_node (child_name self p "_child1") ld (np_sum ld))
                        left_x left_y data_types (gini ld (size left_y))
                        classes min_size max_depth (current_depth + 1) one
                      = Returned left_tree
                   /\ grow_tree find_splits fuel
                        (new_node (child_name self p "_child2") rd (np_sum rd))
                        right_x right_y data_types (gini rd (size right_y))
                        classes min_size max_depth (current_depth + 1) one
                      = Returned right_tree
                   /\ t = set_children
                            (set_split self (Some (make_rule ty thr)) (Some p))
                            (children self ++ [left_tree; right_tree])).
Proof.
  simpl.
  destruct ((size y <? min_size) || Float.eqb bg (of_Z 0)) eqn:Hstop;
    [intros [= <-]; now left |].
  destruct (too_deep max_depth current_depth) eqn:Hdeep;
    [intros [= <-]; now left |].
  destruct (search_features find_splits X y data_types bg classes) as [s | e] eqn:Hs;
    [| discriminate].
  destruct (chosen s) as [[[[thr |] p] ty] |] eqn:Hc;
    try (intros [= <-]; now left).
  destruct (ltb (best_gini s) max_gini) eqn:Hceil; [| intros [= <-]; now left].
  destruct (realize (make_rule ty thr) X y p)
    as [[[[right_y right_x] left_y] left_x] | e] eqn:Hr; [| discriminate].
  intros H. right. exists s, thr, p, ty, right_y, right_x, left_y, left_x.
  do 6 (split; [reflexivity || assumption |]).
  destruct ((size right_y <? min_size) || (size left_y <? min_size)) eqn:Hmin.
  - left. split; [reflexivity |]. injection H as <-. now destruct self.
  - right. split; [reflexivity |].
    destruct (left_distribution s) as [ld |]; [| discriminate].
    destruct (right_distribution s) as [rd |]; [| discriminate].
    destruct (grow_tree find_splits fuel (new_node _ ld _) left_x left_y _ _ _ _ _ _ _)
      as [left_tree | |] eqn:HL; try discriminate.
    destruct (grow_tree find_splits fuel (new_node _ rd _) right_x right_y _ _ _ _ _ _ _)
      as [right_tree | |] eqn:HR; try discriminate.
    exists ld, rd, left_tree, right_tree.
    do 4 (split; [reflexivity || assumption |]).
    injection H as <-. destruct self. simpl. now rewrite <- app_assoc.
Qed.

Lemma search_features_chosen (find_splits : list Z -> list threshold)
  (X : list (list Z)) (y : list Z) (data_types : list string) (bg : fl)
  (classes : list Z) (s : search) (thr : threshold) (p : nat) (ty : string) :
  search_features find_splits X y data_types bg classes = Ok s ->
  chosen s = Some (Some thr, p, ty) ->
  (p < length X)%nat /\ nth_error data_types p = Some ty
  /\ In thr (possible_thresholds find_splits ty (nth p X []))
  /\ ltb (best_gini s) bg = true.
Proof.
  intros Hs Hc. pose proof Hs as Hs'. unfold search_features in Hs.
  apply (feature_loop_inv find_splits X y classes bg _ [] _ _) in Hs.
  2:{ split; [intros ? ? ? [] | reflexivity]. }
  destruct Hs as [_ Hbest]. rewrite Hc in Hbest.
  destruct Hbest as (Hbg & Hin & _). cbn [app] in Hin.
  apply combine_seq_In in Hin. rewrite Nat.sub_0_r in Hin.
  destruct Hin as [Hp Hty].
  split; [lia |]. split; [assumption |]. split; [| assumption].
  apply search_features_sound in Hs'. now destruct (Hs' thr p ty Hc).
Qed.

Lemma realize_width (r : rule) (X : list (list Z)) (y : list Z) (p : nat)
  (right_y left_y : list Z) (right_x left_x : list (list Z)) :
  realize r X y p = Ok (right_y, right_x, left_y, left_x) ->
  length right_x = length X /\ length left_x = length X.
Proof.
  unfold realize.
  destruct (apply_rule r (map Some (nth p X []))) as [splits |]; [| discriminate].
  cbn [bind].
  set (is1 := map (Z.eqb 1) splits). set (is0 := map (Z.eqb 0) splits).
  destruct (mask_index y is1); [| discriminate]. cbn [bind].
  destruct (mapM (fun col => mask_index col is1) X) as [rx |] eqn:Hrx;
    [| discriminate].
  cbn [bind].
  destruct (mask_index y is0); [| discriminate]. cbn [bind].
  destruct (mapM (fun col => mask_index col is0) X) as [lx |] eqn:Hlx;
    [| discriminate].
  cbn [bind]. intros [= <- <- <- <-].
  apply mapM_mask_index in Hrx, Hlx. destruct Hrx as [-> _], Hlx as [-> _].
  now rewrite !length_map.
Qed.

Lemma set_children_leaf (self : tree) (r : rule) (p : nat) (l rt : tree) :
  children self = [] ->
  set_children (set_split self (Some r) (Some p)) (children self ++ [l; rt])
  = Node (name self) (Some r) (Some p) [l; rt] (class_counts self) (n_subset self).
Proof. destruct self. simpl. now intros ->. Qed.

(** The tree grown from a node without children and without split
    fields. *)
Lemma grow_tree_shaped (find_splits : list Z -> list threshold) (fuel : nat) :
  forall (self : tree) (X : list (list Z)) (y : list Z)
    (data_types : list string) (bg : fl) (classes : list Z)
    (min_size : Z) (max_depth : option Z) (current_depth : Z) (max_gini : fl)
    (t : tree),
    children self = [] -> split_rule self = None -> split_feature self = None ->
    grow_tree find_splits fuel self X y data_types bg classes
      min_size max_depth current_depth max_gini = Returned t ->
    shaped (rule_for (length X) data_types) t.
Proof.
  induction fuel as [| fuel IH]; intros self X y data_types bg classes
    min_size max_depth current_depth max_gini t Hc Hr Hf H; [discriminate |].
  assert (Hleaf : shaped (rule_for (length X) data_types) self).
  { destruct self; simpl in *; subst. constructor. }
  apply grow_tree_Returned_inv in H.
  destruct H as [-> | (s & thr & p & ty & ry & rx & ly & lx & _ & _ & Hs & Hch
                       & _ & Hreal & [[_ ->] | (_ & ld & rd & lt & rt & _ & _
                                                 & HL & HR & ->)])].
  - exact Hleaf.
  - destruct self; simpl in *; subst. constructor.
  - rewrite set_children_leaf by assumption.
    destruct (search_features_chosen _ _ _ _ _ _ _ _ _ _ Hs Hch)
      as (Hp & Hty & Hin & _).
    destruct (realize_width _ _ _ _ _ _ _ _ Hreal) as [Hrx Hlx].
    constructor.
    + split; [assumption |]. exists ty, thr. split; [assumption |].
      split; [reflexivity |]. intros Hne. unfold possible_thresholds in Hin.
      destruct (String.eqb_spec ty "c"); [contradiction |].
      apply in_map_iff in Hin. destruct Hin as (t0 & <- & _). now exists t0.
    + rewrite <- Hlx. eapply IH; [| | | exact HL]; reflexivity.
    + rewrite <- Hrx. eapply IH; [| | | exact HR]; reflexivity.
Qed.

(** X10.  The tree [grow_tree] returns for a node that had neither
    children nor split fields is a proper binary tree: every node either has
    no children and no split fields, or has exactly two children, a split
    feature that is a column of [X] and the rule of that column's tag ([>]
    against a single value for a numeric or ordinal column, [==]
    otherwise). *)
Theorem grown_tree_is_binary (find_splits : list Z -> list threshold)
  (fuel : nat) (self : tree) (X : list (list Z)) (y : list Z)
  (data_types : list string) (bg : fl) (classes : list Z)
  (min_size : Z) (max_depth : option Z) (current_depth : Z) (max_gini : fl)
  (t : tree) :
  children self = [] -> split_rule self = None -> split_feature self = None ->
  grow_tree find_splits fuel self X y data_types bg classes
    min_size max_depth current_depth max_gini = Returned t ->
  shaped (rule_for (length X) data_types) t.
Proof. apply grow_tree_shaped. Qed.

Lemma grown_tree_is_binary_witness :
  shaped (rule_for 2 ["n"; "n"])
    (Node "root" (Some (RuleGt (Scalar 1))) (Some 0%nat)
       [Node "root_0_child1" (Some (RuleGt (Scalar 1))) (Some 1%nat)
          [Node "root_0_child1_1_child1" None None [] [1; 1; 0] 2;
           Node "root_0_child1_1_child2" None None [] [1; 1; 0] 2]
          [1; 1; 1] 3;
        Node "root_0_child2" None None [] [1; 1; 1] 3]
       [2; 2; 2] 6).
Proof.
  apply (grown_tree_is_binary singletons 5 (new_node "root" [2; 2; 2] 6)
           [[1; 1; 1; 1; 9; 9]; [1; 2; 1; 2; 1; 2]] [0; 0; 1; 1; 2; 2]
           ["n"; "n"] (gini [2; 2; 2] 6) [0; 1; 2] 2 None 0 one);
    [reflexivity | reflexivity | reflexivity | vm_compute; reflexivity].
Defined.

Lemma shaped_traverse (ncols : nat) (data_types : list string)
  (x : list (option Z)) (t : tree) :
  Forall (fun ty => ty = "n" \/ ty = "o") data_types ->
  (ncols <= length x)%nat ->
  Forall (fun v => v <> None) x ->
  shaped (rule_for ncols data_types) t ->
  exists leaf,
    traverse t x = Ok leaf
    /\ children leaf = [] /\ split_rule leaf = None /\ split_feature leaf = None.
Proof.
  intros Hnum Hlen Hx Ht. induction Ht as [nm cc ns | nm r p l rt cc ns HP Hl IHl Hr IHr].
  - eexists. split; [reflexivity | repeat split].
  - destruct HP as (Hp & ty & thr & Hty & -> & Hscalar).
    assert (Hin : In ty data_types) by (eapply nth_error_In; eauto).
    rewrite Forall_forall in Hnum. specialize (Hnum ty Hin).
    assert (Hne : ty <> "c") by (destruct Hnum; subst; discriminate).
    destruct (Hscalar Hne) as (t0 & ->).
    assert (Hrule : make_rule ty (Scalar t0) = RuleGt (Scalar t0)).
    { destruct Hnum; subst; reflexivity. }
    destruct (nth_error x p) as [v |] eqn:Hv.
    2:{ apply nth_error_None in Hv. lia. }
    assert (Hsome : v <> None).
    { rewrite Forall_forall in Hx. apply Hx. eapply nth_error_In; eauto. }
    destruct v as [z |]; [| now elim Hsome].
    cbn [traverse]. unfold eval_split. cbn [split_feature split_rule children].
    rewrite Hv, Hrule. cbn [apply_rule broadcast mapM py_gt bind astype_int map asscalar].
    destruct (z >? t0); cbn [Z.to_nat Pos.to_nat Pos.iter_op Nat.add]; assumption.
Qed.

(** X11.  Growing then traversing: on the tree returned for a fresh node
    when every column is numeric or ordinal, [traverse] of an example that
    has a value (not [None]) for every column never raises and ends in a
    node without children and without split fields. *)
Theorem traverse_grown_tree_reaches_leaf (find_splits : list Z -> list threshold)
  (fuel : nat) (self : tree) (X : list (list Z)) (y : list Z)
  (data_types : list string) (bg : fl) (classes : list Z)
  (min_size : Z) (max_depth : option Z) (current_depth : Z) (max_gini : fl)
  (t : tree) (x : list (option Z)) :
  children self = [] -> split_rule self = None -> split_feature self = None ->
  Forall (fun ty => ty = "n" \/ ty = "o") data_types ->
  grow_tree find_splits fuel self X y data_types bg classes
    min_size max_depth current_depth max_gini = Returned t ->
  (length X <= length x)%nat ->
  Forall (fun v => v <> None) x ->
  exists leaf,
    traverse t x = Ok leaf
    /\ children leaf = [] /\ split_rule leaf = None /\ split_feature leaf = None.
Proof.
  intros Hc Hr Hf Hnum Hgrow Hlen Hx.
  eapply shaped_traverse; eauto. eapply grow_tree_shaped; eauto.
Qed.

Lemma traverse_grown_tree_reaches_leaf_witness :
  exists leaf,
    traverse
      (Node "root" (Some (RuleGt (Scalar 1))) (Some 0%nat)
         [Node "root_0_child1" None None [] [2; 0] 2;
          Node "root_0_child2" None None [] [0; 2] 2]
         [2; 2] 4) [Some 7] = Ok leaf
    /\ children leaf = [] /\ split_rule leaf = None /\ split_feature leaf = None.
Proof.
  apply (traverse_grown_tree_reaches_leaf singletons 5 (new_node "root" [2; 2] 4)
           [[1; 1; 6; 6]] [0; 0; 1; 1] ["n"] (gini [2; 2] 4) [0; 1] 2 None 0 one).
  - reflexivity.
  - reflexivity.
  - reflexivity.
  - repeat constructor.
  - vm_compute. reflexivity.
  - simpl. lia.
  - repeat constructor. discriminate.
Defined.

(** X12.  Whatever a call of [grow_tree] does, it leaves the name, the
    class counts and the example count of the node it is called on as they
    were, and removes none of its children.  On return the children are the
    former ones, possibly followed by two new nodes; when an exception
    escapes, they are the former ones. *)
Theorem grow_tree_keeps_node_data (find_splits : list Z -> list threshold)
  (fuel : nat) (self : tree) (X : list (list Z)) (y : list Z)
  (data_types : list string) (bg : fl) (classes : list Z)
  (min_size : Z) (max_depth : option Z) (current_depth : Z) (max_gini : fl) :
  match grow_tree find_splits fuel self X y data_types bg classes
          min_size max_depth current_depth max_gini with
  | OutOfFuel => True
  | Returned t =>
      name t = name self /\ class_counts t = class_counts self
      /\ n_subset t = n_subset self
      /\ (children t = children self
          \/ exists l r, children t = children self ++ [l; r])
  | Raised _ t =>
      name t = name self /\ class_counts t = class_counts self
      /\ n_subset t = n_subset self /\ children t = children self
  end.
Proof.
  destruct fuel as [| fuel]; [exact I |]. simpl.
  destruct ((size y <? min_size) || Float.eqb bg (of_Z 0)); [now auto |].
  destruct (too_deep max_depth current_depth); [now auto |].
  destruct (search_features find_splits X y data_types bg classes) as [s | e];
    [| now auto].
  destruct (chosen s) as [[[[thr |] p] ty] |]; try now auto.
  destruct (ltb (best_gini s) max_gini); [| now auto].
  destruct (realize (make_rule ty thr) X y p)
    as [[[[right_y right_x] left_y] left_x] | e]; [| destruct self; now auto].
  destruct ((size right_y <? min_size) || (size left_y <? min_size));
    [destruct self; now auto |].
  destruct (left_distribution s) as [ld |]; [| destruct self; now auto].
  destruct (right_distribution s) as [rd |]; [| destruct self; now auto].
  destruct (grow_tree find_splits fuel (new_node _ ld _) left_x left_y _ _ _ _ _ _ _)
    as [left_tree | |]; [| destruct self; now auto | exact I].
  destruct (grow_tree find_splits fuel (new_node _ rd _) right_x right_y _ _ _ _ _ _ _)
    as [right_tree | |]; [| destruct self; now auto | exact I].
  destruct self as [nm r f cs cc ns]. simpl. repeat split.
  right. exists left_tree, right_tree. now rewrite <- app_assoc.
Qed.

Lemma height_leaf (t : tree) : children t = [] -> height t = 0%nat.
Proof. destruct t. simpl. now intros ->. Qed.

Lemma height_pair (nm : string) (r : option rule) (f : option nat)
  (l rt : tree) (cc : list Z) (ns : Z) :
  height (Node nm r f [l; rt] cc ns)
  = S (Nat.max (height l) (height rt)).
Proof. simpl. lia. Qed.

(** X13.  With [max_depth = d], the tree returned for a node without
    children, grown at depth [current_depth], has height at most
    [d + 1 - current_depth] (and 0 when that is negative): called on a root
    at depth 0, [grow_tree] builds at most [d + 1] levels of splits. *)
Theorem max_depth_bounds_height (find_splits : list Z -> list threshold)
  (fuel : nat) (self : tree) (X : list (list Z)) (y : list Z)
  (data_types : list string) (bg : fl) (classes : list Z)
  (min_size : Z) (d : Z) (current_depth : Z) (max_gini : fl) (t : tree) :
  children self = [] ->
  grow_tree find_splits fuel self X y data_types bg classes
    min_size (Some d) current_depth max_gini = Returned t ->
  (height t <= Z.to_nat (d + 1 - current_depth))%nat.
Proof.
  revert self X y data_types bg classes min_size d current_depth max_gini t.
  induction fuel as [| fuel IH]; intros self X y data_types bg classes
    min_size d current_depth max_gini t Hc H; [discriminate |].
  apply grow_tree_Returned_inv in H.
  destruct H as [-> | (s & thr & p & ty & ry & rx & ly & lx & _ & Hdeep & _ & _
                       & _ & _ & [[_ ->] | (_ & ld & rd & lt & rt & _ & _
                                            & HL & HR & ->)])].
  - rewrite height_leaf by assumption. lia.
  - rewrite height_leaf; [lia |]. destruct self; simpl in *; assumption.
  - rewrite set_children_leaf by assumption. rewrite height_pair.
    apply IH in HL; [| reflexivity]. apply IH in HR; [| reflexivity].
    unfold too_deep in Hdeep. rewrite Z.gtb_ltb in Hdeep.
    apply Z.ltb_ge in Hdeep.
    replace (d + 1 - (current_depth + 1)) with (d - current_depth) in HL, HR by lia.
    replace (d + 1 - current_depth) with (Z.succ (d - current_depth)) by lia.
    rewrite Z2Nat.inj_succ by lia. lia.
Qed.

Lemma max_depth_bounds_height_witness :
  let t := Node "root" (Some (RuleGt (Scalar 1))) (Some 0%nat)
             [Node "root_0_child1" None None [] [1; 1; 1] 3;
              Node "root_0_child2" None None [] [1; 1; 1] 3]
             [2; 2; 2] 6 in
  (height t <= Z.to_nat (0 + 1 - 0))%nat.
Proof.
  intros t.
  apply (max_depth_bounds_height singletons 5 (new_node "root" [2; 2; 2] 6)
           [[1; 1; 1; 1; 9; 9]; [1; 2; 1; 2; 1; 2]] [0; 0; 1; 1; 2; 2]
           ["n"; "n"] (gini [2; 2; 2] 6) [0; 1; 2] 2 0 0 one);
    [reflexivity | vm_compute; reflexivity].
Defined.



Lemma constant_nth (X : list (list Z)) (p : nat) :
  Forall constant X -> constant (nth p X []).
Proof.
  intros H. destruct (Nat.lt_ge_cases p (length X)) as [Hlt | Hge].
  - rewrite Forall_forall in H. apply H. now apply nth_In.
  - rewrite nth_overflow by assumption. intros a b [].
Qed.

(** X15.  A node whose feature columns are all constant is never split:
    whether the call returns or raises, the node is as it was. *)
Theorem constant_features_never_split (find_splits : list Z -> list threshold)
  (fuel : nat) (self : tree) (X : list (list Z)) (y : list Z)
  (data_types : list string) (bg : fl) (classes : list Z)
  (min_size : Z) (max_depth : option Z) (current_depth : Z) (max_gini : fl) :
  Forall constant X ->
  match grow_tree find_splits fuel self X y data_types bg classes
          min_size max_depth current_depth max_gini with
  | OutOfFuel => True
  | Returned t => t = self
  | Raised _ t => t = self
  end.
Proof.
  intros Hconst. destruct fuel as [| fuel]; [exact I |]. simpl.
  destruct ((size y <? min_size) || Float.eqb bg (of_Z 0)); [reflexivity |].
  destruct (too_deep max_depth current_depth); [reflexivity |].
  destruct (search_features find_splits X y data_types bg classes) as [s | e] eqn:Hs;
    [| reflexivity].
  destruct (chosen s) as [[[[thr |] p] ty] |] eqn:Hc; try reflexivity.
  exfalso. apply search_features_sound in Hs. specialize (Hs thr p ty Hc).
  eapply constant_not_two_sided; [| exact Hs]. now apply constant_nth.
Qed.

Lemma constant_features_never_split_witness :
  grow_tree singles_and_pairs 5 (new_node "root" [2; 2] 4) [[3; 3; 3; 3]; [8; 8; 8; 8]]
    [0; 0; 1; 1] ["n"; "c"] (gini [2; 2] 4) [0; 1] 1 None 0 one
  = Returned (new_node "root" [2; 2] 4).
Proof.
  pose proof (constant_features_never_split singles_and_pairs 5
                (new_node "root" [2; 2] 4) [[3; 3; 3; 3]; [8; 8; 8; 8]]
                [0; 0; 1; 1] ["n"; "c"] (gini [2; 2] 4) [0; 1] 1 None 0 one) as H.
  destruct (grow_tree singles_and_pairs 5 _ _ _ _ _ _ _ _ _ _) as [t | e t |] eqn:E.
  - f_equal. apply H. repeat constructor; intros a b Ha Hb; simpl in Ha, Hb; lia.
  - vm_compute in E. discriminate.
  - vm_compute in E. discriminate.
Defined.

(** ** Traversal, and the rule against the search *)

Lemma pick_In (x : list (option Z)) (cs : list tree) :
  forall (k : nat) (n : tree),
    (fix pick (cs : list tree) (k : nat) {struct cs} : res tree :=
       match cs, k with
       | [], _ => Raise IndexError
       | c :: _, O => traverse c x
       | _ :: cs', S k' => pick cs' k'
       end) cs k = Ok n ->
    exists c, In c cs /\ traverse c x = Ok n.
Proof.
  induction cs as [| c cs IH]; intros k n; [discriminate |].
  destruct k as [| k].
  - intros H. exists c. split; [now left | exact H].
  - intros H. destruct (IH k n H) as (c' & Hin & Ht).
    exists c'. split; [now right | exact Ht].
Qed.

(** X16.  Whatever the tree, the node [traverse] returns is the node it
    was called on or one below it, and it is a node on which calling the
    split rule raised TypeError: a node without split fields, or one whose
    rule cannot compare the example's value. *)
Theorem traverse_stops_where_rule_fails (x : list (option Z)) (t n : tree) :
  traverse t x = Ok n ->
  within n t /\ eval_split n x = Raise TypeError.
Proof.
  revert n. induction t as [nm r f cs cc ns IH] using tree_rect_children.
  intros n. cbn [traverse].
  destruct (eval_split (Node nm r f cs cc ns) x) as [child_index | e] eqn:He.
  - destruct (asscalar child_index) as [i | e]; [| discriminate].
    cbn [children]. intros H. apply pick_In in H.
    destruct H as (c & Hin & Ht).
    rewrite Forall_forall in IH. destruct (IH c Hin n Ht) as [Hw Hn].
    split; [| assumption]. eapply within_child; [exact Hin | exact Hw].
  - destruct e; try discriminate. intros [= <-]. split; [constructor | exact He].
Qed.

Lemma traverse_stops_where_rule_fails_witness :
  let leaf := new_node "leaf" [1; 0] 1 in
  let other := new_node "other" [0; 1] 1 in
  let t := Node "root" (Some (RuleGt (Scalar 5))) (Some 0%nat)
             [leaf; other] [1; 1] 2 in
  within other t /\ eval_split other [Some 7] = Raise TypeError.
Proof.
  intros leaf other t.
  apply (traverse_stops_where_rule_fails [Some 7] t other). reflexivity.
Defined.

Lemma rule_mask_single (col : list Z) (t : Z) :
  rule_mask (RuleEq (Subset [t])) (map Some col) = Ok (isin col [t]).
Proof.
  cbn [rule_mask broadcast]. rewrite length_map.
  destruct col as [| v [| v' col']].
  - reflexivity.
  - cbn. now rewrite orb_false_r.
  - cbn [length Nat.eqb]. rewrite mapM_py_eq. now rewrite isin_single.
Qed.

(** X17.  For a numeric or ordinal column, and for a categorical column
    when the candidate is a single value, the rule stored at commit time
    answers on the column exactly what the search selected: the partition
    made of the data is the one whose impurity was computed. *)
Theorem committed_rule_reproduces_search (X : list (list Z)) (y : list Z)
  (p : nat) (ty : string) (thr : threshold) (sel : list bool)
  (right_y left_y : list Z) (right_x left_x : list (list Z)) :
  ty = "n" \/ ty = "o"
  \/ (ty = "c" /\ exists t, thr = Scalar t \/ thr = Subset [t]) ->
  selection ty (nth p X []) thr = Ok sel ->
  realize (make_rule ty thr) X y p = Ok (right_y, right_x, left_y, left_x) ->
  right_y = select y sel /\ left_y = select y (map negb sel)
  /\ right_x = map (fun col => select col sel) X
  /\ left_x = map (fun col => select col (map negb sel)) X.
Proof.
  intros Hty Hsel Hreal.
  assert (Hmask : rule_mask (make_rule ty thr) (map Some (nth p X [])) = Ok sel).
  { destruct Hty as [-> | [-> | [-> (t & [-> | ->])]]]; cbn in Hsel |- *.
    - exact Hsel.
    - exact Hsel.
    - injection Hsel as <-. rewrite mapM_py_eq. now rewrite isin_single.
    - injection Hsel as <-. apply rule_mask_single. }
  revert Hreal. unfold realize.
  assert (Happly : apply_rule (make_rule ty thr) (map Some (nth p X []))
                   = (b <- rule_mask (make_rule ty thr) (map Some (nth p X [])) ;;
                      Ok (astype_int b))).
  { destruct (make_rule ty thr); reflexivity. }
  rewrite Happly, Hmask. cbn [bind]. rewrite astype_int_is1, astype_int_is0.
  destruct (mask_index y sel) as [ry | e] eqn:Hry; [| discriminate].
  cbn [bind].
  destruct (mapM (fun col => mask_index col sel) X) as [rx |] eqn:Hrx;
    [| discriminate].
  cbn [bind].
  destruct (mask_index y (map negb sel)) as [ly | e] eqn:Hly; [| discriminate].
  cbn [bind].
  destruct (mapM (fun col => mask_index col (map negb sel)) X) as [lx |] eqn:Hlx;
    [| discriminate].
  cbn [bind]. intros [= <- <- <- <-].
  apply mask_index_Ok in Hry, Hly. destruct Hry as [_ ->], Hly as [_ ->].
  apply mapM_mask_index in Hrx, Hlx. destruct Hrx as [-> _], Hlx as [-> _].
  repeat split.
Qed.

Lemma committed_rule_reproduces_search_witness :
  let X := [[1; 2; 1]; [7; 8; 9]] in
  let sel := [false; true; false] in
  [5] = select [4; 5; 6] sel /\ [4; 6] = select [4; 5; 6] (map negb sel)
  /\ [[2]; [8]] = map (fun col => select col sel) X
  /\ [[1; 1]; [7; 9]] = map (fun col => select col (map negb sel)) X.
Proof.
  intros X sel.
  apply (committed_rule_reproduces_search X [4; 5; 6] 0 "c" (Subset [2]) sel
           [5] [4; 6] [[2]; [8]] [[1; 1]; [7; 9]]).
  - right. right. split; [reflexivity |]. exists 2. now right.
  - reflexivity.
  - vm_compute. reflexivity.
Defined.






(** X19.  A node with fewer than two examples is never split, whatever
    [min_size] is (a side without example has impurity [nan] and is never
    retained): whether the call returns or raises, the node is as it
    was. *)
Theorem fewer_than_two_examples_never_split
  (find_splits : list Z -> list threshold)
  (fuel : nat) (self : tree) (X : list (list Z)) (y : list Z)
  (data_types : list string) (bg : fl) (classes : list Z)
  (min_size : Z) (max_depth : option Z) (current_depth : Z) (max_gini : fl) :
  (length y < 2)%nat ->
  match grow_tree find_splits fuel self X y data_types bg classes
          min_size max_depth current_depth max_gini with
  | OutOfFuel => True
  | Returned t => t = self
  | Raised _ t => t = self
  end.
Proof.
  intros Hy. destruct fuel as [| fuel]; [exact I |]. simpl.
  destruct ((size y <? min_size) || Float.eqb bg (of_Z 0)); [reflexivity |].
  destruct (too_deep max_depth current_depth); [reflexivity |].
  destruct (search_features find_splits X y data_types bg classes) as [s | e] eqn:Hs;
    [| reflexivity].
  destruct (chosen s) as [[[[thr |] p] ty] |] eqn:Hc; try reflexivity.
  exfalso. apply search_features_sound in Hs.
  destruct (Hs thr p ty Hc) as [_ (q & l & r & He)].
  apply evaluate_two_sided in He. destruct He as (sel & _ & Hlen & Ht & Hf).
  destruct sel as [| b1 [| b2 sel]]; simpl in *; try lia.
  destruct Ht as [-> | []], Hf as [[=] | []].
Qed.

Lemma fewer_than_two_examples_never_split_witness :
  grow_tree singletons 5 (new_node "root" [1; 0] 1) [[3]; [8]] [0]
    ["n"; "c"] (Some (1 # 2)) [0; 1] (-1) None 0 one
  = Returned (new_node "root" [1; 0] 1).
Proof.
  pose proof (fewer_than_two_examples_never_split singletons 5
                (new_node "root" [1; 0] 1) [[3]; [8]] [0] ["n"; "c"]
                (Some (1 # 2)) [0; 1] (-1) None 0 one) as H.
  destruct (grow_tree singletons 5 _ _ _ _ _ _ _ _ _ _) as [t | e t |] eqn:E.
  - f_equal. apply H. simpl. lia.
  - vm_compute in E. discriminate.
  - vm_compute in E. discriminate.
Defined.
